(** * The NJ town directory generators, embedded in Rocq

    The normalisation pipeline of [scripts/generate-nj-towns.js] (the batch
    generator, module [Batch]) and of the single-town Trenton generator that
    accompanies it (module [Single]): category inference, address and phone
    formatting, identifier derivation, deduplication, sorting, and the batch
    loop with its counters.

    Conventions of the embedding.
    - A JavaScript string is a Rocq [string], one character per code unit.
      The character classes and the case mappings are those of JavaScript on
      the ASCII range, where the embedding is exact; codes from 128 on are
      caseless and belong to no class.
    - A tag object is a finite map from keys to string values; reading a
      key that is not there gives [None] ([undefined]).  The static category
      table is read through its own keys: a tag value that names a member
      every object inherits (["constructor"], ["toString"], ...) is outside
      the embedding.
    - [null] and [undefined] results are [None].
    - An exception is the left summand of a sum, carrying the message.
    - The network, the file system and the clock are an abstract world that
      is threaded through the effectful functions. *)

From Stdlib Require Import Ascii String ZArith Lia List Sorted Permutation OrdersEx.
From stdpp Require Import base option list strings pretty gmap.
From Equations Require Import Equations.

Local Open Scope string_scope.
Local Open Scope list_scope.

(** ** String primitives of the host language *)

Module JsString.

Definition code (c : ascii) : nat := nat_of_ascii c.

Definition between (lo hi : nat) (c : ascii) : bool :=
  Nat.leb lo (code c) && Nat.leb (code c) hi.

(** [\d] *)
Definition is_digit (c : ascii) : bool := between 48 57 c.
(** [a-z] and [A-Z] *)
Definition is_lower (c : ascii) : bool := between 97 122 c.
Definition is_upper (c : ascii) : bool := between 65 90 c.
(** [\s]: tab, line feed, vertical tab, form feed, carriage return, space *)
Definition is_space (c : ascii) : bool := between 9 13 c || Nat.eqb (code c) 32.

Definition is_plus (c : ascii) : bool := Nat.eqb (code c) 43.
Definition is_hyphen (c : ascii) : bool := Nat.eqb (code c) 45.
Definition is_underscore (c : ascii) : bool := Nat.eqb (code c) 95.

Definition lower_char (c : ascii) : ascii :=
  if is_upper c then ascii_of_nat (code c + 32) else c.
Definition upper_char (c : ascii) : ascii :=
  if is_lower c then ascii_of_nat (code c - 32) else c.

Fixpoint map_chars (f : ascii -> ascii) (s : string) : string :=
  match s with
  | EmptyString => EmptyString
  | String c s' => String (f c) (map_chars f s')
  end.

Fixpoint filter_chars (p : ascii -> bool) (s : string) : string :=
  match s with
  | EmptyString => EmptyString
  | String c s' => if p c then String c (filter_chars p s') else filter_chars p s'
  end.

Definition toLowerCase (s : string) : string := map_chars lower_char s.
Definition toUpperCase (s : string) : string := map_chars upper_char s.

(** [s.charAt(0)], the empty string when [s] is empty *)
Definition charAt0 (s : string) : string :=
  match s with
  | EmptyString => EmptyString
  | String c _ => String c EmptyString
  end.

(** [s.slice(n)] and [s.slice(n, m)] for non-negative literal bounds *)
Fixpoint slice_from (n : nat) (s : string) : string :=
  match n, s with
  | O, _ => s
  | S n', EmptyString => EmptyString
  | S n', String _ s' => slice_from n' s'
  end.

Fixpoint slice_upto (m : nat) (s : string) : string :=
  match m, s with
  | O, _ => EmptyString
  | S _, EmptyString => EmptyString
  | S m', String c s' => String c (slice_upto m' s')
  end.

Definition slice (n m : nat) (s : string) : string :=
  slice_upto (m - n) (slice_from n s).

(** [s.startsWith(p)] *)
Definition startsWith (p s : string) : bool := String.prefix p s.

(** [s.replace(/c/g, d)] for a one-character pattern class [p] *)
Definition replace_each (p : ascii -> bool) (d : ascii) (s : string) : string :=
  map_chars (fun c => if p c then d else c) s.

(** [s.replace(/c+/g, d)]: every maximal run of [p]-characters becomes one
    [d]. *)
Fixpoint drop_run (p : ascii -> bool) (s : string) : string :=
  match s with
  | EmptyString => EmptyString
  | String c s' => if p c then drop_run p s' else s
  end.

Fixpoint replace_runs_from (in_run : bool) (p : ascii -> bool) (d : ascii)
    (s : string) : string :=
  match s with
  | EmptyString => EmptyString
  | String c s' =>
      if p c then
        if in_run then replace_runs_from true p d s'
        else String d (replace_runs_from true p d s')
      else String c (replace_runs_from false p d s')
  end.

Definition replace_runs (p : ascii -> bool) (d : ascii) (s : string) : string :=
  replace_runs_from false p d s.

(** [s.trim()] *)
Fixpoint trim_end (s : string) : string :=
  match s with
  | EmptyString => EmptyString
  | String c s' =>
      match trim_end s' with
      | EmptyString => if is_space c then EmptyString else String c EmptyString
      | t => String c t
      end
  end.

Definition trim (s : string) : string := trim_end (drop_run is_space s).

(** [parts.join(sep)] *)
Definition join (sep : string) (parts : list string) : string :=
  String.concat sep parts.

(** A value used as a condition: [undefined] and the empty string are
    falsy, every other string is truthy. *)
Definition truthy (v : option string) : bool :=
  match v with
  | Some (String _ _) => true
  | _ => false
  end.

(** [a || b] on values that are strings or [undefined] *)
Definition or_else (a b : option string) : option string :=
  if truthy a then a else b.

(** The object an object literal denotes: entries are defined in order and
    a later definition of a key replaces an earlier one. *)
Definition object_of (entries : list (string * string)) : gmap string string :=
  foldl (fun m kv => <[kv.1 := kv.2]> m) ∅ entries.

End JsString.

(** ** Array methods of the host language *)

Module JsArray.

(** [l.findIndex(p)]: the index of the first element that satisfies [p],
    [-1] when there is none. *)
Fixpoint findIndex_from {A} (p : A -> bool) (i : Z) (l : list A) : Z :=
  match l with
  | [] => (-1)%Z
  | x :: l' => if p x then i else findIndex_from p (i + 1)%Z l'
  end.

Definition findIndex {A} (p : A -> bool) (l : list A) : Z :=
  findIndex_from p 0%Z l.

(** [self.filter((x, index, self) => f)] *)
Fixpoint filter_from {A} (f : A -> Z -> bool) (i : Z) (l : list A) : list A :=
  match l with
  | [] => []
  | x :: l' =>
      if f x i then x :: filter_from f (i + 1)%Z l' else filter_from f (i + 1)%Z l'
  end.

Definition filter_indexed {A} (f : A -> Z -> list A -> bool) (self : list A) : list A :=
  filter_from (fun x i => f x i self) 0%Z self.

(** [l.sort(cmp)] for a comparison function that orders its arguments
    consistently: the stable rearrangement in which [cmp] is never positive
    from an element to a later one.  It is computed by insertion, each
    element going in front of the first one it does not exceed. *)
Fixpoint insert_by {A} (cmp : A -> A -> Z) (x : A) (l : list A) : list A :=
  match l with
  | [] => [x]
  | y :: l' => if (cmp x y <=? 0)%Z then x :: y :: l' else y :: insert_by cmp x l'
  end.

Definition sort {A} (cmp : A -> A -> Z) (l : list A) : list A :=
  foldr (insert_by cmp) [] l.

End JsArray.

(** ** Built-in functions of the runtime and the data of the API *)

(** The built-ins whose results the generators only pass on: [parseInt] and
    the collation behind [String.prototype.localeCompare]. *)
Class Runtime := {
  number : Type;
  parseInt : string -> number;
  localeCompare : string -> string -> Z
}.

(** A comparison function is consistent when swapping its arguments flips
    the sign of its result and "not greater" is transitive. *)
Class ConsistentCollation (R : Runtime) : Prop := {
  localeCompare_flip : forall a b, Z.sgn (localeCompare a b) = (- Z.sgn (localeCompare b a))%Z;
  localeCompare_trans : forall a b c,
    (localeCompare a b <= 0)%Z -> (localeCompare b c <= 0)%Z -> (localeCompare a c <= 0)%Z
}.

(** An element of an Overpass response; [tags] may be missing. *)
Record element := {
  el_type : string;
  el_id : Z;
  el_tags : option (gmap string string)
}.

(** A parsed response; [elements] may be missing. *)
Record response := { elements : option (list element) }.

(** [el.tags && el.tags.name] as a condition *)
Definition has_name (el : element) : bool :=
  match el_tags el with
  | Some tags => JsString.truthy (tags !! "name")
  | None => false
  end.

(** [el.tags] of an element that passed [has_name] *)
Definition tags_of (el : element) : gmap string string := default ∅ (el_tags el).

(** [s] where [s] is known to be a string; [undefined] does not occur there. *)
Definition str (v : option string) : string := default "" v.

(** ** The batch generator: [scripts/generate-nj-towns.js] *)

Module Batch.
Import JsString.

Definition BATCH_SIZE : nat := 20.
Definition RATE_LIMIT_MS : nat := 2000.

(** The entries of the [categoryMap] literal, in source order. *)
Definition categoryMap_entries : list (string * string) :=
  [ ("restaurant", "Restaurant"); ("cafe", "Cafe"); ("bar", "Bar"); ("pub", "Pub");
    ("fast_food", "Fast Food"); ("bank", "Bank"); ("pharmacy", "Pharmacy");
    ("hospital", "Hospital"); ("clinic", "Clinic"); ("doctors", "Doctor");
    ("dentist", "Dentist"); ("veterinary", "Veterinary"); ("school", "School");
    ("library", "Library"); ("post_office", "Post Office"); ("fuel", "Gas Station");
    ("car_wash", "Car Wash"); ("car_repair", "Auto Repair"); ("parking", "Parking");
    ("place_of_worship", "Place of Worship"); ("theatre", "Theatre"); ("cinema", "Cinema");
    ("nightclub", "Nightclub"); ("gym", "Gym"); ("community_centre", "Community Center");
    ("social_facility", "Social Services"); ("childcare", "Childcare");
    ("supermarket", "Supermarket"); ("convenience", "Convenience Store");
    ("bakery", "Bakery"); ("butcher", "Butcher"); ("grocery", "Grocery Store");
    ("deli", "Deli"); ("clothes", "Clothing Store"); ("shoes", "Shoe Store");
    ("jewelry", "Jewelry Store"); ("electronics", "Electronics Store");
    ("hardware", "Hardware Store"); ("furniture", "Furniture Store");
    ("car", "Car Dealership"); ("car_parts", "Auto Parts"); ("bicycle", "Bicycle Shop");
    ("beauty", "Beauty Salon"); ("hairdresser", "Hair Salon"); ("optician", "Optician");
    ("florist", "Florist"); ("gift", "Gift Shop"); ("books", "Bookstore");
    ("alcohol", "Liquor Store"); ("tobacco", "Tobacco Shop"); ("laundry", "Laundromat");
    ("dry_cleaning", "Dry Cleaning"); ("mobile_phone", "Mobile Phone Store");
    ("computer", "Computer Store"); ("department_store", "Department Store");
    ("mall", "Shopping Mall"); ("variety_store", "Variety Store"); ("pet", "Pet Store");
    ("toys", "Toy Store"); ("sports", "Sporting Goods"); ("outdoor", "Outdoor Store");
    ("music", "Music Store"); ("photo", "Photo Store"); ("tattoo", "Tattoo Parlor");
    ("pawnbroker", "Pawn Shop"); ("lawyer", "Law Office"); ("accountant", "Accountant");
    ("insurance", "Insurance"); ("estate_agent", "Real Estate");
    ("employment_agency", "Employment Agency"); ("travel_agent", "Travel Agency");
    ("notary", "Notary"); ("tax_advisor", "Tax Advisor"); ("financial", "Financial Services");
    ("plumber", "Plumber"); ("electrician", "Electrician"); ("hvac", "HVAC");
    ("carpenter", "Carpenter"); ("painter", "Painter"); ("roofer", "Roofer");
    ("locksmith", "Locksmith"); ("hotel", "Hotel"); ("motel", "Motel");
    ("guest_house", "Guest House"); ("hostel", "Hostel"); ("museum", "Museum");
    ("attraction", "Attraction") ].

Definition categoryMap : gmap string string :=
  object_of categoryMap_entries.

Definition tagTypes : list string :=
  ["shop"; "amenity"; "office"; "craft"; "tourism"; "healthcare"].

(** [value.charAt(0).toUpperCase() + value.slice(1).replace(/_/g, ' ')] *)
Definition capitalized (value : string) : string :=
  toUpperCase (charAt0 value) +:+ replace_each is_underscore " "%char (slice_from 1 value).

(** The body of the [for ... of] loop of [getCategory], over the tag types
    that are still to be visited. *)
Fixpoint getCategory_from (tags : gmap string string) (types : list string) : string :=
  match types with
  | [] => "Business"
  | tagType :: rest =>
      if truthy (tags !! tagType) then
        let value := str (tags !! tagType) in
        if String.eqb value "yes" then getCategory_from tags rest
        else if truthy (categoryMap !! value) then str (categoryMap !! value)
        else capitalized value
      else getCategory_from tags rest
  end.

Definition getCategory (tags : gmap string string) : string :=
  getCategory_from tags tagTypes.

(** [`(${c.slice(a, a+3)}) ${c.slice(a+3, a+6)}-${c.slice(a+6)}`]: the
    two template literals of [formatPhone], with [a = 0] and [a = 1]. *)
Definition us_format (a : nat) (cleaned : string) : string :=
  "(" +:+ slice a (a + 3) cleaned +:+ ") " +:+ slice (a + 3) (a + 6) cleaned
      +:+ "-" +:+ slice_from (a + 6) cleaned.

(** [phone.replace(/[^\d+]/g, '')] *)
Definition cleaned_phone (phone : string) : string :=
  filter_chars (fun c => is_digit c || is_plus c) phone.

Definition formatPhone (phone : option string) : string :=
  if negb (truthy phone) then ""
  else
    let phone := str phone in
    let cleaned := cleaned_phone phone in
    if Nat.eqb (String.length cleaned) 10 then us_format 0 cleaned
    else if Nat.eqb (String.length cleaned) 11 && startsWith "1" cleaned
    then us_format 1 cleaned
    else phone.

Definition slugify (name : string) : string :=
  trim
    (replace_runs is_hyphen "-"%char
       (replace_runs is_space "-"%char
          (filter_chars
             (fun c => is_lower c || is_digit c || is_space c || is_hyphen c)
             (toLowerCase name)))).

(** [name.replace(/ Township$/i, '')] and its siblings: a final occurrence
    of [suffix], compared without regard to case, is removed. *)
Definition strip_suffix (suffix name : string) : string :=
  let n := String.length name in
  let k := String.length suffix in
  if Nat.leb k n && String.eqb (toLowerCase (slice_from (n - k) name)) (toLowerCase suffix)
  then slice 0 (n - k) name
  else name.

Definition cleanName (name : string) : string :=
  strip_suffix " City" (strip_suffix " Borough" (strip_suffix " Township" name)).

Section Pipeline.
Context {R : Runtime}.

Record town := {
  name : string;
  displayName : string;
  slug : string;
  population : option number;
  osmId : Z;
  type : string
}.

(** The [map] callback of [fetchNJTownsList]. *)
Definition town_of_element (el : element) : town :=
  let tags := tags_of el in
  let name := str (tags !! "name") in
  let cleanName := cleanName name in
  {| name := name;
     displayName := cleanName;
     slug := slugify cleanName +:+ "-nj";
     population :=
       if truthy (tags !! "population") then Some (parseInt (str (tags !! "population")))
       else None;
     osmId := el_id el;
     type := el_type el |}.

(** The chain applied to [data.elements] in [fetchNJTownsList]. *)
Definition towns_of_elements (els : list element) : list town :=
  JsArray.sort (fun a b => localeCompare (displayName a) (displayName b))
    (JsArray.filter_indexed
       (fun town index self =>
          Z.eqb index (JsArray.findIndex (fun t => String.eqb (slug t) (slug town)) self))
       (map town_of_element (List.filter has_name els))).

Record business := {
  b_name : string;
  b_category : string;
  b_address : string;
  b_phone : string;
  b_email : string;
  b_website : string;
  b_hours : string;
  b_rating : option number;
  b_review_count : option number;
  b_claimed : bool;
  b_featured : bool
}.

(** The second [filter] callback of [fetchBusinessesForTown]. *)
Definition postcode_ok (el : element) : bool :=
  let postcode := tags_of el !! "addr:postcode" in
  if truthy postcode then startsWith "08" (str postcode) || startsWith "07" (str postcode)
  else true.

(** The [parts] array of the [map] callback, after the last update. *)
Definition address_parts (tags : gmap string string) (town_displayName : string)
    : list string :=
  let parts : list string := [] in
  let parts :=
    if truthy (tags !! "addr:housenumber") && truthy (tags !! "addr:street")
    then parts ++ [str (tags !! "addr:housenumber") +:+ " " +:+ str (tags !! "addr:street")]
    else if truthy (tags !! "addr:street") then parts ++ [str (tags !! "addr:street")]
    else parts in
  let parts := parts ++ [town_displayName] in
  let parts := parts ++ ["NJ"] in
  if truthy (tags !! "addr:postcode")
  then alter (fun last => last +:+ " " +:+ str (tags !! "addr:postcode"))
             (length parts - 1) parts
  else parts.

(** The [map] callback of [fetchBusinessesForTown]. *)
Definition business_of_element (t : town) (el : element) : business :=
  let tags := tags_of el in
  {| b_name := str (tags !! "name");
     b_category := getCategory tags;
     b_address := join ", " (address_parts tags (displayName t));
     b_phone := formatPhone (tags !! "phone");
     b_email := str (or_else (or_else (tags !! "email") (tags !! "contact:email")) (Some ""));
     b_website :=
       str (or_else (or_else (tags !! "website") (tags !! "contact:website")) (Some ""));
     b_hours := str (or_else (tags !! "opening_hours") (Some ""));
     b_rating := None;
     b_review_count := None;
     b_claimed := false;
     b_featured := false |}.

(** The comparison function given to [sort]. *)
Definition compare_business (a b : business) : Z :=
  let catCompare := localeCompare (b_category a) (b_category b) in
  if negb (Z.eqb catCompare 0) then catCompare
  else localeCompare (b_name a) (b_name b).

(** The third [filter] of the chain: duplicates by name and address. *)
Definition dedup (bs : list business) : list business :=
  JsArray.filter_indexed
    (fun business index self =>
       Z.eqb index
         (JsArray.findIndex
            (fun b => String.eqb (b_name b) (b_name business)
                      && String.eqb (b_address b) (b_address business))
            self))
    bs.

(** The chain applied to [data.elements] in [fetchBusinessesForTown]. *)
Definition businesses_of_elements (t : town) (els : list element) : list business :=
  JsArray.sort compare_business
    (dedup (map (business_of_element t) (List.filter postcode_ok (List.filter has_name els)))).

End Pipeline.

(** *** Effects *)

Inductive path : Type :=
| DATA_DIR | CONTENT_DIR | TOWNS_LIST_FILE
| data_file (slug : string)        (* [path.join(DATA_DIR, `${slug}.json`)] *)
| content_file (slug : string).    (* [path.join(CONTENT_DIR, `${slug}.md`)] *)

(** The two Overpass queries; the second one names the town. *)
Inductive query : Type :=
| towns_query
| businesses_query (town_name : string).

Section Effects.
Context {R : Runtime}.

Record townData := {
  td_name : string;
  td_state : string;
  td_state_abbr : string;
  td_county : option string;
  td_population : option number;
  td_slug : string;
  td_businesses : list business
}.

(** What is handed to [fs.writeFileSync]: the value that is serialised
    with [JSON.stringify], or the text itself. *)
Inductive file : Type :=
| towns_list_json (towns : list town)
| town_data_json (data : townData)
| text_file (content : string).

(** The world outside the program.  A call either fails with a message
    or gives a result, and leaves a world behind in both cases. *)
Class Host := {
  World : Type;
  queryOverpass : query -> World -> (string + response) * World;
  existsSync : path -> World -> bool;
  mkdirSync : path -> World -> (string + unit) * World;
  readTownsList : World -> (string + list town) * World;
  writeFileSync : path -> file -> World -> (string + unit) * World;
  sleep : nat -> World -> World;
  path_text : path -> string
}.

Context {host : Host}.

Record machine := {
  world : World;
  stdout : list string;   (* one entry per [console.log] *)
  stderr : list string    (* one entry per [console.error] *)
}.

(** A computation that may throw: it runs on a machine and ends with a
    message (an exception) or with a value. *)
Definition IO (A : Type) : Type := machine -> (string + A) * machine.

Definition ret {A} (a : A) : IO A := fun m => (inr a, m).
Definition throw {A} (msg : string) : IO A := fun m => (inl msg, m).
Definition bind {A B} (c : IO A) (k : A -> IO B) : IO B :=
  fun m => match c m with
           | (inl msg, m') => (inl msg, m')
           | (inr a, m') => k a m'
           end.
Definition try_catch {A} (body : IO A) (handler : string -> IO A) : IO A :=
  fun m => match body m with
           | (inl msg, m') => handler msg m'
           | (inr a, m') => (inr a, m')
           end.

Definition on_world {A} (f : World -> (string + A) * World) : IO A :=
  fun m => let '(r, w) := f (world m) in
           (r, {| world := w; stdout := stdout m; stderr := stderr m |}).
Definition read_world {A} (f : World -> A) : IO A := fun m => (inr (f (world m)), m).
Definition console_log (line : string) : IO unit :=
  fun m => (inr tt, {| world := world m; stdout := stdout m ++ [line]; stderr := stderr m |}).
Definition console_error (line : string) : IO unit :=
  fun m => (inr tt, {| world := world m; stdout := stdout m; stderr := stderr m ++ [line] |}).
Definition sleep_ms (ms : nat) : IO unit :=
  on_world (fun w => (inr tt, sleep ms w)).

Notation "'do' x <- c ; k" := (bind c (fun x => k))
  (at level 10, x name, c at level 100, k at level 200).
Notation "'run' c ; k" := (bind c (fun _ => k))
  (at level 10, c at level 100, k at level 200).

Definition nl : string := String (ascii_of_nat 10) EmptyString.
Definition dq : string := String (ascii_of_nat 34) EmptyString.

Definition fetchNJTownsList : IO (list town) :=
  run console_log ("Fetching list of all NJ towns from OpenStreetMap..." +:+ nl);
  do data <- on_world (queryOverpass towns_query);
  match elements data with
  | None | Some [] => throw "No towns found in NJ"
  | Some els => ret (towns_of_elements els)
  end.

Definition fetchBusinessesForTown (t : town) : IO (list business) :=
  do data <- on_world (queryOverpass (businesses_query (name t)));
  match elements data with
  | None => ret []
  | Some els => ret (businesses_of_elements t els)
  end.

Definition generateDataFile (t : town) (businesses : list business) : IO path :=
  let townData :=
    {| td_name := displayName t;
       td_state := "New Jersey";
       td_state_abbr := "NJ";
       td_county := None;
       td_population := population t;
       td_slug := slug t;
       td_businesses := businesses |} in
  let filePath := data_file (slug t) in
  run on_world (writeFileSync filePath (town_data_json townData));
  ret filePath.

Definition generateContentFile (t : town) : IO path :=
  let content :=
    "---" +:+ nl +:+
    "title: " +:+ dq +:+ displayName t +:+ ", NJ Business Directory" +:+ dq +:+ nl +:+
    "type: " +:+ dq +:+ "towns" +:+ dq +:+ nl +:+
    "slug: " +:+ dq +:+ slug t +:+ dq +:+ nl +:+
    "state: " +:+ dq +:+ "nj" +:+ dq +:+ nl +:+
    "town_data: " +:+ dq +:+ slug t +:+ dq +:+ nl +:+
    "---" +:+ nl in
  let filePath := content_file (slug t) in
  run on_world (writeFileSync filePath (text_file content));
  ret filePath.

(** The object [processTown] returns; a missing [error] is falsy. *)
Record outcome := { skipped : bool; businesses : nat; error : bool }.

Definition processTown (t : town) : IO outcome :=
  let dataFilePath := data_file (slug t) in
  do exists_ <- read_world (existsSync dataFilePath);
  if (exists_ : bool) then
    run console_log ("Skipping " +:+ displayName t +:+ " (already exists)");
    ret {| skipped := true; businesses := 0; error := false |}
  else
    try_catch
      (do businesses <- fetchBusinessesForTown t;
       run generateDataFile t businesses;
       run generateContentFile t;
       run console_log ("Processing " +:+ displayName t +:+ "... "
                        +:+ pretty (length businesses) +:+ " businesses found");
       ret {| skipped := false; businesses := length businesses; error := false |})
      (fun message =>
         run console_error ("Error processing " +:+ displayName t +:+ ": " +:+ message);
         ret {| skipped := false; businesses := 0; error := true |}).

Record counters := {
  totalProcessed : nat;
  totalSkipped : nat;
  totalBusinesses : nat;
  totalErrors : nat
}.

(** The update of the counters after one town. *)
Definition count (c : counters) (result : outcome) : counters :=
  if skipped result then
    {| totalProcessed := totalProcessed c; totalSkipped := totalSkipped c + 1;
       totalBusinesses := totalBusinesses c; totalErrors := totalErrors c |}
  else if error result then
    {| totalProcessed := totalProcessed c; totalSkipped := totalSkipped c;
       totalBusinesses := totalBusinesses c; totalErrors := totalErrors c + 1 |}
  else
    {| totalProcessed := totalProcessed c + 1; totalSkipped := totalSkipped c;
       totalBusinesses := totalBusinesses c + businesses result;
       totalErrors := totalErrors c |}.

(** The inner loop of [main]: [for (const town of batch)]. *)
Fixpoint process_batch (batch : list town) (c : counters) : IO counters :=
  match batch with
  | [] => ret c
  | t :: rest =>
      do result <- processTown t;
      run sleep_ms RATE_LIMIT_MS;
      process_batch rest (count c result)
  end.

(** [Math.ceil(n / d)] *)
Definition ceil_div (n d : nat) : nat := (n + d - 1) / d.

(** The outer loop of [main]:
    [for (let i = 0; i < towns.length; i += BATCH_SIZE)], from [i] on. *)
Equations? process_batches (towns : list town) (i : nat) (c : counters)
    : IO counters by wf (length towns - i) lt :=
  process_batches towns i c with decide (i < length towns) := {
    | left _ =>
        let batch := take BATCH_SIZE (drop i towns) in
        let batchNum := i / BATCH_SIZE + 1 in
        let totalBatches := ceil_div (length towns) BATCH_SIZE in
        run console_log (nl +:+ "--- Batch " +:+ pretty batchNum +:+ "/"
                         +:+ pretty totalBatches +:+ " ---" +:+ nl);
        do c' <- process_batch batch c;
        run (if decide (i + BATCH_SIZE < length towns)
             then run console_log (nl +:+ "Pausing between batches...");
                  sleep_ms 5000
             else ret tt);
        process_batches towns (i + BATCH_SIZE) c'
    | right _ => ret c
  }.
Proof. unfold BATCH_SIZE. lia. Qed.

Definition print_summary (towns : list town) (c : counters) : IO unit :=
  run console_log (nl +:+ "========== SUMMARY ==========");
  run console_log ("Total towns in NJ: " +:+ pretty (length towns));
  run console_log ("Towns processed: " +:+ pretty (totalProcessed c));
  run console_log ("Towns skipped (already exist): " +:+ pretty (totalSkipped c));
  run console_log ("Towns with errors: " +:+ pretty (totalErrors c));
  run console_log ("Total businesses found: " +:+ pretty (totalBusinesses c));
  console_log ("==============================" +:+ nl).

Definition no_counts : counters :=
  {| totalProcessed := 0; totalSkipped := 0; totalBusinesses := 0; totalErrors := 0 |}.

(** [main] up to the point where [towns] is known. *)
Definition load_towns : IO (list town) :=
  do data_dir <- read_world (existsSync DATA_DIR);
  run (if (data_dir : bool) then ret tt else on_world (mkdirSync DATA_DIR));
  do content_dir <- read_world (existsSync CONTENT_DIR);
  run (if (content_dir : bool) then ret tt else on_world (mkdirSync CONTENT_DIR));
  do have_list <- read_world (existsSync TOWNS_LIST_FILE);
  if (have_list : bool) then
    run console_log ("Loading existing NJ towns list..." +:+ nl);
    on_world readTownsList
  else
    do towns <- fetchNJTownsList;
    run on_world (writeFileSync TOWNS_LIST_FILE (towns_list_json towns));
    run console_log ("Found " +:+ pretty (length towns) +:+ " towns in New Jersey");
    run console_log ("Saved towns list to " +:+ path_text TOWNS_LIST_FILE +:+ nl);
    ret towns.

(** [main] from there on: the batches and the summary. *)
Definition run_batches (towns : list town) : IO counters :=
  run console_log ("Total towns to process: " +:+ pretty (length towns));
  run console_log ("Processing in batches of " +:+ pretty BATCH_SIZE +:+ "..." +:+ nl);
  do c <- process_batches towns 0 no_counts;
  run print_summary towns c;
  ret c.

Definition main : IO unit :=
  do towns <- load_towns;
  run run_batches towns;
  ret tt.

(** [main().catch(...)]: the exit status and the machine at the end. *)
Definition program (m : machine) : nat * machine :=
  match main m with
  | (inl message, m') => (1, snd (console_error ("Fatal error: " +:+ message) m'))
  | (inr _, m') => (0, m')
  end.

End Effects.

End Batch.

(** ** The single-town generator for Trenton *)

Module Single.
Import JsString.

(** The entries of the [categoryMap] literal, in source order; some keys
    are defined twice. *)
Definition categoryMap_entries : list (string * string) :=
  [ (* Amenity *)
    ("restaurant", "Restaurant"); ("cafe", "Cafe"); ("bar", "Bar"); ("pub", "Pub");
    ("fast_food", "Fast Food"); ("bank", "Bank"); ("pharmacy", "Pharmacy");
    ("hospital", "Hospital"); ("clinic", "Clinic"); ("doctors", "Doctor");
    ("dentist", "Dentist"); ("veterinary", "Veterinary"); ("school", "School");
    ("library", "Library"); ("post_office", "Post Office"); ("fuel", "Gas Station");
    ("car_wash", "Car Wash"); ("car_repair", "Auto Repair"); ("parking", "Parking");
    ("place_of_worship", "Place of Worship"); ("theatre", "Theatre"); ("cinema", "Cinema");
    ("nightclub", "Nightclub"); ("gym", "Gym"); ("community_centre", "Community Center");
    ("social_facility", "Social Services"); ("childcare", "Childcare");
    (* Shop *)
    ("supermarket", "Supermarket"); ("convenience", "Convenience Store");
    ("bakery", "Bakery"); ("butcher", "Butcher"); ("grocery", "Grocery Store");
    ("deli", "Deli"); ("clothes", "Clothing Store"); ("shoes", "Shoe Store");
    ("jewelry", "Jewelry Store"); ("electronics", "Electronics Store");
    ("hardware", "Hardware Store"); ("furniture", "Furniture Store");
    ("car", "Car Dealership"); ("car_repair", "Auto Repair"); ("car_parts", "Auto Parts");
    ("bicycle", "Bicycle Shop"); ("beauty", "Beauty Salon"); ("hairdresser", "Hair Salon");
    ("optician", "Optician"); ("florist", "Florist"); ("gift", "Gift Shop");
    ("books", "Bookstore"); ("alcohol", "Liquor Store"); ("tobacco", "Tobacco Shop");
    ("laundry", "Laundromat"); ("dry_cleaning", "Dry Cleaning");
    ("mobile_phone", "Mobile Phone Store"); ("computer", "Computer Store");
    ("department_store", "Department Store"); ("mall", "Shopping Mall");
    ("variety_store", "Variety Store"); ("pet", "Pet Store"); ("toys", "Toy Store");
    ("sports", "Sporting Goods"); ("outdoor", "Outdoor Store"); ("music", "Music Store");
    ("photo", "Photo Store"); ("tattoo", "Tattoo Parlor"); ("pawnbroker", "Pawn Shop");
    (* Office *)
    ("lawyer", "Law Office"); ("accountant", "Accountant"); ("insurance", "Insurance");
    ("estate_agent", "Real Estate"); ("employment_agency", "Employment Agency");
    ("travel_agent", "Travel Agency"); ("notary", "Notary"); ("tax_advisor", "Tax Advisor");
    ("financial", "Financial Services");
    (* Craft *)
    ("plumber", "Plumber"); ("electrician", "Electrician"); ("hvac", "HVAC");
    ("carpenter", "Carpenter"); ("painter", "Painter"); ("roofer", "Roofer");
    ("locksmith", "Locksmith");
    (* Tourism *)
    ("hotel", "Hotel"); ("motel", "Motel"); ("guest_house", "Guest House");
    ("hostel", "Hostel"); ("museum", "Museum"); ("attraction", "Attraction");
    (* Healthcare *)
    ("hospital", "Hospital"); ("clinic", "Clinic"); ("doctors", "Doctor");
    ("dentist", "Dentist"); ("pharmacy", "Pharmacy") ].

Definition categoryMap : gmap string string :=
  object_of categoryMap_entries.

Definition tagTypes : list string :=
  ["shop"; "amenity"; "office"; "craft"; "tourism"; "healthcare"].

(** [value.charAt(0).toUpperCase() + value.slice(1).replace(/_/g, ' ')] *)
Definition capitalized (value : string) : string :=
  toUpperCase (charAt0 value) +:+ replace_each is_underscore " "%char (slice_from 1 value).

(** The body of the loop of [getCategory]; the table is consulted before
    the test for the generic value. *)
Fixpoint getCategory_from (tags : gmap string string) (types : list string) : string :=
  match types with
  | [] => "Business"
  | tagType :: rest =>
      if truthy (tags !! tagType) then
        let value := str (tags !! tagType) in
        if truthy (categoryMap !! value) then str (categoryMap !! value)
        else if String.eqb value "yes" then getCategory_from tags rest
        else capitalized value
      else getCategory_from tags rest
  end.

Definition getCategory (tags : gmap string string) : string :=
  getCategory_from tags tagTypes.

Definition formatAddress (tags : gmap string string) : string :=
  let parts : list string := [] in
  let parts :=
    if truthy (tags !! "addr:housenumber") && truthy (tags !! "addr:street")
    then parts ++ [str (tags !! "addr:housenumber") +:+ " " +:+ str (tags !! "addr:street")]
    else if truthy (tags !! "addr:street") then parts ++ [str (tags !! "addr:street")]
    else parts in
  let parts := parts ++ ["Trenton"] in
  let parts := parts ++ ["NJ"] in
  let parts :=
    if truthy (tags !! "addr:postcode")
    then alter (fun last => last +:+ " " +:+ str (tags !! "addr:postcode"))
               (length parts - 1) parts
    else parts in
  join ", " parts.

Definition us_format (a : nat) (cleaned : string) : string :=
  "(" +:+ slice a (a + 3) cleaned +:+ ") " +:+ slice (a + 3) (a + 6) cleaned
      +:+ "-" +:+ slice_from (a + 6) cleaned.

Definition cleaned_phone (phone : string) : string :=
  filter_chars (fun c => is_digit c || is_plus c) phone.

(** The result is [null] ([None]) for a missing or empty phone. *)
Definition formatPhone (phone : option string) : option string :=
  if negb (truthy phone) then None
  else
    let phone := str phone in
    let cleaned := cleaned_phone phone in
    if Nat.eqb (String.length cleaned) 10 then Some (us_format 0 cleaned)
    else if Nat.eqb (String.length cleaned) 11 && startsWith "1" cleaned
    then Some (us_format 1 cleaned)
    else Some phone.

Record business := {
  b_name : string;
  b_category : string;
  b_address : string;
  b_phone : option string;
  b_website : option string
}.

(** The second [filter] callback of [main]. *)
Definition postcode_ok (el : element) : bool :=
  let postcode := tags_of el !! "addr:postcode" in
  if truthy postcode then startsWith "08" (str postcode) else true.

(** The [map] callback of [main]. *)
Definition business_of_element (el : element) : business :=
  let tags := tags_of el in
  {| b_name := str (tags !! "name");
     b_category := getCategory tags;
     b_address := formatAddress tags;
     b_phone := or_else (formatPhone (tags !! "phone")) None;
     b_website := or_else (or_else (tags !! "website") (tags !! "contact:website")) None |}.

(** The third [filter] of the chain: duplicates by name and address. *)
Definition dedup (bs : list business) : list business :=
  JsArray.filter_indexed
    (fun business index self =>
       Z.eqb index
         (JsArray.findIndex
            (fun b => String.eqb (b_name b) (b_name business)
                      && String.eqb (b_address b) (b_address business))
            self))
    bs.

Section Pipeline.
Context {R : Runtime}.

(** The comparison function given to [sort]. *)
Definition compare_business (a b : business) : Z :=
  let catCompare := localeCompare (b_category a) (b_category b) in
  if negb (Z.eqb catCompare 0) then catCompare
  else localeCompare (b_name a) (b_name b).

(** The chain applied to [data.elements] in [main]. *)
Definition businesses_of_elements (els : list element) : list business :=
  JsArray.sort compare_business
    (dedup (map business_of_element (List.filter postcode_ok (List.filter has_name els)))).

End Pipeline.

End Single.

(** ** Vocabulary of the specification *)

(** A tag type is passed over by the classifier when its value is missing,
    empty or the generic ["yes"]. *)
Definition passed_over (tags : gmap string string) (tagType : string) : Prop :=
  JsString.truthy (tags !! tagType) = false \/ tags !! tagType = Some "yes".

(** The category a value stands for: its label in the table, or else the
    value as the classifier rewrites it. *)
Definition label_of (table : gmap string string) (rewritten : string -> string)
    (value : string) : string :=
  match table !! value with
  | Some label => label
  | None => rewritten value
  end.

(** The rewriting the specification describes: first character in upper
    case, every underscore a space. *)
Definition capitalized_spec (value : string) : string :=
  JsString.replace_each JsString.is_underscore " "%char
    (JsString.toUpperCase (JsString.charAt0 value) +:+ JsString.slice_from 1 value).

(** The digits of a phone text, in order. *)
Definition digits_of (phone : string) : string :=
  JsString.filter_chars JsString.is_digit phone.

(** ["(AAA) BBB-CCCC"] from ten digits. *)
Definition us_number (d : string) : string :=
  "(" +:+ substring 0 3 d +:+ ") " +:+ substring 3 3 d +:+ "-" +:+ substring 6 4 d.

(** The phone formatter as the specification words it: by the number of
    digits that remain. *)
Definition formatPhone_spec (phone : string) : string :=
  let d := digits_of phone in
  if Nat.eqb (String.length d) 10 then us_number d
  else if Nat.eqb (String.length d) 11 && String.prefix "1" d
  then us_number (substring 1 10 d)
  else phone.

(** The address as the specification words it: an optional first segment,
    the town, and the state with the postal code attached to it. *)
Definition address_spec (tags : gmap string string) (town state : string) : string :=
  let housenumber := tags !! "addr:housenumber" in
  let street := tags !! "addr:street" in
  let postcode := tags !! "addr:postcode" in
  let last :=
    if JsString.truthy postcode then state +:+ " " +:+ str postcode else state in
  let tail := town +:+ ", " +:+ last in
  if JsString.truthy housenumber && JsString.truthy street
  then (str housenumber +:+ " " +:+ str street) +:+ ", " +:+ tail
  else if JsString.truthy street then str street +:+ ", " +:+ tail
  else tail.

(** A boundary relation that carries nothing but a name. *)
Definition named (name : string) : element :=
  {| el_type := "relation"; el_id := 0; el_tags := Some {[ "name" := name ]} |}.

(** The raw element of the end-to-end scenario. *)
Definition joes_deli : element :=
  {| el_type := "node";
     el_id := 1;
     el_tags := Some {[ "name" := "Joe's Deli"; "shop" := "deli";
                        "addr:housenumber" := "12"; "addr:street" := "Main St";
                        "addr:postcode" := "08608"; "phone" := "6095551234" ]} |}.


(** Deduplication as the specification words it: going through the records
    in fetch order, a record whose key was seen before is dropped, any other
    record is kept and its key remembered. *)
Fixpoint keep_first {A K : Type} `{EqDecision K} (key : A -> K) (seen : list K)
    (l : list A) : list A :=
  match l with
  | [] => []
  | x :: l' =>
      if decide (key x ∈ seen) then keep_first key seen l'
      else x :: keep_first key (key x :: seen) l'
  end.

(** The key of a business record: its name and its address. *)
Definition name_and_address {R : Runtime} (b : Batch.business) : string * string :=
  (Batch.b_name b, Batch.b_address b).

Definition name_and_address_single (b : Single.business) : string * string :=
  (Single.b_name b, Single.b_address b).





(** A runtime for the examples: numbers are integers, [parseInt] is left
    trivial, and strings are collated by their character codes. *)
Definition code_unit_compare (a b : string) : Z :=
  match String_as_OT.compare a b with
  | Lt => (-1)%Z
  | Eq => 0%Z
  | Gt => 1%Z
  end.

Definition code_unit_runtime : Runtime :=
  {| number := Z; parseInt := fun _ => 0%Z; localeCompare := code_unit_compare |}.


(** A host for the examples: every query is answered with [canned], no
    file exists, every write succeeds; its world counts the queries. *)
Definition canned_host (canned : response) : Batch.Host (R := code_unit_runtime) :=
  {| Batch.World := nat;
     Batch.queryOverpass := fun _ w => (inr canned, S w);
     Batch.existsSync := fun _ _ => false;
     Batch.mkdirSync := fun _ w => (inr tt, w);
     Batch.readTownsList := fun w => (inr [], w);
     Batch.writeFileSync := fun _ _ w => (inr tt, w);
     Batch.sleep := fun _ w => w;
     Batch.path_text := fun _ => "" |}.


(** A town counts as processed when it was neither skipped nor in error. *)
Definition processed (r : Batch.outcome) : bool :=
  negb (Batch.skipped r) && negb (Batch.error r).

Definition errored (r : Batch.outcome) : bool :=
  negb (Batch.skipped r) && Batch.error r.

(** The counters as the specification words them, from the outcomes of
    the towns. *)
Definition tally (results : list Batch.outcome) : Batch.counters :=
  {| Batch.totalProcessed := length (List.filter processed results);
     Batch.totalSkipped := length (List.filter Batch.skipped results);
     Batch.totalBusinesses := sum_list (map Batch.businesses (List.filter processed results));
     Batch.totalErrors := length (List.filter errored results) |}.

(** The summary block for [total] towns and the counters [c]. *)
Definition summary_block (total : nat) (c : Batch.counters) : list string :=
  [ String (ascii_of_nat 10) "========== SUMMARY ==========";
    "Total towns in NJ: " +:+ pretty total;
    "Towns processed: " +:+ pretty (Batch.totalProcessed c);
    "Towns skipped (already exist): " +:+ pretty (Batch.totalSkipped c);
    "Towns with errors: " +:+ pretty (Batch.totalErrors c);
    "Total businesses found: " +:+ pretty (Batch.totalBusinesses c);
    "==============================" +:+ String (ascii_of_nat 10) "" ].

(** What links a town to its outcome: the outcome is what [processTown]
    returned for the town, on some machine. *)
Definition outcome_of {R : Runtime} {host : Batch.Host} (t : Batch.town)
    (r : Batch.outcome) : Prop :=
  exists m1 m2, Batch.processTown t m1 = (inr r, m2).


(** Every character of [s] satisfies [p]. *)
Fixpoint all_chars (p : ascii -> bool) (s : string) : bool :=
  match s with
  | EmptyString => true
  | String c s' => p c && all_chars p s'
  end.

(** No two neighbours in [s] both satisfy [p]; [prev] tells whether the
    character in front of [s] does. *)
Fixpoint no_adjacent (p : ascii -> bool) (prev : bool) (s : string) : bool :=
  match s with
  | EmptyString => true
  | String c s' =>
      if p c then negb prev && no_adjacent p true s' else no_adjacent p false s'
  end.

(** The characters an identifier is made of: lower-case letters, digits and
    the hyphen. *)
Definition slug_char (c : ascii) : bool :=
  JsString.is_lower c || JsString.is_digit c || JsString.is_hyphen c.

(** The names of the members that an object literal inherits from
    [Object.prototype].  They are no keys of the category table, yet in
    JavaScript [categoryMap[value]] finds the inherited function or object
    at such a name. *)
Definition inherited_members : list string :=
  [ "constructor"; "hasOwnProperty"; "isPrototypeOf"; "propertyIsEnumerable";
    "toLocaleString"; "toString"; "valueOf"; "__proto__";
    "__defineGetter__"; "__defineSetter__"; "__lookupGetter__"; "__lookupSetter__" ].

(** The tag values on which the embedded classifier is the classifier of the
    code: text of ASCII characters, where [toUpperCase] is exact, that names
    no inherited member, where reading the table through its own keys is
    exact. *)
Definition plain_value (value : string) : bool :=
  all_chars (fun c => Nat.ltb (JsString.code c) 128) value
  && negb (existsb (String.eqb value) inherited_members).

(** Every value that [tags] holds at one of [types] is a plain value. *)
Definition plain_at (tags : gmap string string) (types : list string) : Prop :=
  Forall (fun t => forall v, tags !! t = Some v -> plain_value v = true) types.


(** The record of the single-town generator that carries what a record of
    the batch generator carries: an empty phone or website becomes [null]. *)
Definition single_of_batch {R : Runtime} (b : Batch.business) : Single.business :=
  {| Single.b_name := Batch.b_name b;
     Single.b_category := Batch.b_category b;
     Single.b_address := Batch.b_address b;
     Single.b_phone := if JsString.truthy (Some (Batch.b_phone b))
                       then Some (Batch.b_phone b) else None;
     Single.b_website := if JsString.truthy (Some (Batch.b_website b))
                         then Some (Batch.b_website b) else None |}.


(** The rest of the single-town generator that is pure: the records of
    [cleanedBusinesses], in which a phone or website that is [null] is left
    out ([None] stands for a property that is not there). *)
Module SingleMain.

Record cleaned := {
  c_name : string;
  c_category : string;
  c_address : string;
  c_phone : option string;
  c_website : option string
}.

(** The [map] callback that builds [cleanedBusinesses]. *)
Definition clean (b : Single.business) : cleaned :=
  {| c_name := Single.b_name b;
     c_category := Single.b_category b;
     c_address := Single.b_address b;
     c_phone := if JsString.truthy (Single.b_phone b) then Single.b_phone b else None;
     c_website := if JsString.truthy (Single.b_website b) then Single.b_website b else None |}.

Definition cleanedBusinesses (businesses : list Single.business) : list cleaned :=
  map clean businesses.

End SingleMain.

(** A host for the examples whose network is down: the two directories
    exist and nothing else does, every query fails, every write succeeds. *)
Definition offline_host : Batch.Host (R := code_unit_runtime) :=
  {| Batch.World := nat;
     Batch.queryOverpass := fun _ w => (inl "Request timeout", S w);
     Batch.existsSync := fun p _ =>
       match p with
       | Batch.DATA_DIR | Batch.CONTENT_DIR => true
       | _ => false
       end;
     Batch.mkdirSync := fun _ w => (inr tt, w);
     Batch.readTownsList := fun w => (inr [], w);
     Batch.writeFileSync := fun _ _ w => (inr tt, w);
     Batch.sleep := fun _ w => w;
     Batch.path_text := fun _ => "" |}.

(** A host for the examples in which every file is there already; the
    town list on file holds Trenton. *)
Definition archive_host : Batch.Host (R := code_unit_runtime) :=
  {| Batch.World := nat;
     Batch.queryOverpass := fun _ w => (inl "Request timeout", S w);
     Batch.existsSync := fun _ _ => true;
     Batch.mkdirSync := fun _ w => (inr tt, w);
     Batch.readTownsList := fun w =>
       (inr [Batch.town_of_element (R := code_unit_runtime) (named "Trenton")], w);
     Batch.writeFileSync := fun _ _ w => (inr tt, w);
     Batch.sleep := fun _ w => w;
     Batch.path_text := fun _ => "" |}.

(** The machine at the start, on any host with a world of numbers. *)
Definition start_machine (host : Batch.Host (R := code_unit_runtime)) (w : Batch.World)
    : Batch.machine (host := host) :=
  @Batch.Build_machine code_unit_runtime host w [] [].

(** * Properties *)

Import JsString.

(** ** The category classifier *)

Lemma categoryMap_same : Batch.categoryMap = Single.categoryMap.
Proof. reflexivity. Qed.

Lemma categoryMap_no_yes : Batch.categoryMap !! "yes" = None.
Proof. reflexivity. Qed.

Lemma categoryMap_labels_truthy (value label : string) :
  Batch.categoryMap !! value = Some label -> truthy (Some label) = true.
Proof.
  revert value label.
  change (map_Forall (fun _ label => truthy (Some label) = true) Batch.categoryMap).
  apply map_Forall_to_list.
  let l := eval vm_compute in (map_to_list Batch.categoryMap) in
  change (map_to_list Batch.categoryMap) with l.
  repeat (constructor; [reflexivity|]). constructor.
Qed.

Lemma truthy_Some (v : string) : v <> "" -> truthy (Some v) = true.
Proof. destruct v; [congruence | reflexivity]. Qed.

Arguments Batch.categoryMap : simpl never.
Arguments Single.categoryMap : simpl never.

Lemma Batch_getCategory_from_cons (tags : gmap string string) (k : string) (rest : list string) :
  Batch.getCategory_from tags (k :: rest) =
  if truthy (tags !! k) then
    if String.eqb (str (tags !! k)) "yes" then Batch.getCategory_from tags rest
    else if truthy (Batch.categoryMap !! str (tags !! k))
         then str (Batch.categoryMap !! str (tags !! k))
         else Batch.capitalized (str (tags !! k))
  else Batch.getCategory_from tags rest.
Proof. reflexivity. Qed.

Lemma Single_getCategory_from_cons (tags : gmap string string) (k : string) (rest : list string) :
  Single.getCategory_from tags (k :: rest) =
  if truthy (tags !! k) then
    if truthy (Single.categoryMap !! str (tags !! k))
    then str (Single.categoryMap !! str (tags !! k))
    else if String.eqb (str (tags !! k)) "yes" then Single.getCategory_from tags rest
         else Single.capitalized (str (tags !! k))
  else Single.getCategory_from tags rest.
Proof. reflexivity. Qed.

(** The two loops agree on every list of tag types. *)
Lemma getCategory_from_same (tags : gmap string string) (types : list string) :
  Batch.getCategory_from tags types = Single.getCategory_from tags types.
Proof.
  induction types as [|k rest IH]; [reflexivity|].
  rewrite Batch_getCategory_from_cons, Single_getCategory_from_cons, IH.
  rewrite <- categoryMap_same.
  destruct (truthy (tags !! k)); [|reflexivity].
  destruct (String.eqb_spec (str (tags !! k)) "yes") as [-> | _]; [|reflexivity].
  rewrite categoryMap_no_yes. reflexivity.
Qed.

Lemma getCategory_from_passed_over (tags : gmap string string) (k : string) (rest : list string) :
  passed_over tags k ->
  Batch.getCategory_from tags (k :: rest) = Batch.getCategory_from tags rest.
Proof.
  intros [Hf | Hy]; rewrite Batch_getCategory_from_cons.
  - rewrite Hf. reflexivity.
  - rewrite Hy. reflexivity.
Qed.

Lemma getCategory_from_skip (tags : gmap string string) (pre rest : list string) :
  Forall (passed_over tags) pre ->
  Batch.getCategory_from tags (pre ++ rest) = Batch.getCategory_from tags rest.
Proof.
  induction 1 as [|k pre Hk _ IH]; [reflexivity|].
  rewrite <- app_comm_cons, getCategory_from_passed_over by assumption. exact IH.
Qed.

Lemma getCategory_from_hit (tags : gmap string string) (k v : string) (rest : list string) :
  tags !! k = Some v -> v <> "" -> v <> "yes" ->
  Batch.getCategory_from tags (k :: rest) = label_of Batch.categoryMap Batch.capitalized v.
Proof.
  intros Hk Hne Hyes. rewrite Batch_getCategory_from_cons, Hk.
  rewrite (truthy_Some v Hne). change (str (Some v)) with v.
  destruct (String.eqb_spec v "yes") as [? | _]; [contradiction|].
  unfold label_of. destruct (Batch.categoryMap !! v) as [label|] eqn:Hl.
  - rewrite (categoryMap_labels_truthy v label Hl). reflexivity.
  - reflexivity.
Qed.

(** The classifier returns what the first tag type with a usable value
    stands for. *)
Lemma getCategory_first_usable (tags : gmap string string) (pre post : list string)
    (k v : string) :
  Batch.tagTypes = pre ++ k :: post ->
  Forall (passed_over tags) pre ->
  tags !! k = Some v -> v <> "" -> v <> "yes" ->
  Batch.getCategory tags = label_of Batch.categoryMap Batch.capitalized v.
Proof.
  intros Hsplit Hpre Hk Hne Hyes. unfold Batch.getCategory. rewrite Hsplit.
  rewrite getCategory_from_skip by assumption.
  eapply getCategory_from_hit; eassumption.
Qed.

Lemma getCategory_none_usable (tags : gmap string string) :
  Forall (passed_over tags) Batch.tagTypes -> Batch.getCategory tags = "Business".
Proof.
  intros Hall. unfold Batch.getCategory.
  rewrite <- (app_nil_r Batch.tagTypes), getCategory_from_skip by assumption.
  reflexivity.
Qed.

(** A value that the classifier does not pass over is usable. *)
Lemma passed_over_or_usable (tags : gmap string string) (t : string) :
  passed_over tags t \/ exists v, tags !! t = Some v /\ v <> "" /\ v <> "yes".
Proof.
  unfold passed_over. destruct (tags !! t) as [v|]; [|left; left; reflexivity].
  destruct (String.eqb_spec v "yes") as [-> | Hyes]; [left; right; reflexivity|].
  destruct v as [|c v]; [left; left; reflexivity|].
  right. eexists. split; [reflexivity|]. split; [discriminate | assumption].
Qed.












(** The rewriting of the code and the one of the specification differ
    exactly on the values that begin with an underscore. *)
Lemma capitalized_spec_iff (value : string) :
  Batch.capitalized value = capitalized_spec value <-> startsWith "_" value = false.
Proof.
  unfold Batch.capitalized, capitalized_spec, replace_each, toUpperCase.
  destruct value as [|c value]; [split; reflexivity|].
  cbn [charAt0 slice_from map_chars startsWith String.prefix].
  change (String (upper_char c) "" +:+ value) with (String (upper_char c) value).
  change (String (upper_char c) "" +:+ ?t) with (String (upper_char c) t).
  cbn [map_chars].
  destruct (is_underscore c) eqn:Hu.
  - assert (c = "_"%char) as ->.
    { unfold is_underscore, code in Hu. apply Nat.eqb_eq in Hu.
      rewrite <- (ascii_nat_embedding c), Hu. reflexivity. }
    split; intros Heq.
    + vm_compute in Heq. discriminate Heq.
    + destruct (ascii_dec "_" "_") as [_ | Hne]; [|congruence].
      destruct value; discriminate Heq.
  - assert (Hup : is_underscore (upper_char c) = false).
    { unfold upper_char. destruct (is_lower c) eqn:Hl; [|exact Hu].
      unfold is_lower, between, code in Hl. apply andb_prop in Hl as [Hlo Hhi].
      apply Nat.leb_le in Hlo, Hhi. unfold is_underscore, code.
      rewrite nat_ascii_embedding by lia. apply Nat.eqb_neq. lia. }
    rewrite Hup. split; [|reflexivity]. intros _.
    destruct (ascii_dec "_" c) as [<- | _]; [|reflexivity].
    vm_compute in Hu. discriminate Hu.
Qed.

(** C4. On the tag mapping whose only tag is shop = ["_foo_bar"], a value
    that is no key of the table, both classifiers return ["_foo bar"]: the
    underscore in front is kept, where the rewriting of the specification
    gives [" foo bar"].  The value ["foo_bar"] does give ["Foo bar"]. *)
Theorem getCategory_leading_underscore :
  Batch.categoryMap !! "_foo_bar" = None /\
  Batch.getCategory {[ "shop" := "_foo_bar" ]} = "_foo bar" /\
  Single.getCategory {[ "shop" := "_foo_bar" ]} = "_foo bar" /\
  capitalized_spec "_foo_bar" = " foo bar" /\
  Batch.getCategory {[ "shop" := "foo_bar" ]} = "Foo bar".
Proof. repeat split; vm_compute; reflexivity. Qed.

(** C10. The two classifiers return the same category for every tag
    mapping; ["yes"] is a key of neither table, and the two literals, with
    later definitions of a key replacing earlier ones, denote the same
    table. *)
Theorem getCategory_implementations_agree :
  (forall tags : gmap string string, Batch.getCategory tags = Single.getCategory tags) /\
  Batch.categoryMap !! "yes" = None /\
  Single.categoryMap !! "yes" = None /\
  Batch.categoryMap = Single.categoryMap.
Proof.
  split; [|repeat split].
  intros tags. apply getCategory_from_same.
Qed.

(** ** The phone formatter *)

Lemma filter_chars_no_plus (phone : string) :
  filter_chars is_plus phone = "" -> Batch.cleaned_phone phone = digits_of phone.
Proof.
  unfold Batch.cleaned_phone, digits_of.
  induction phone as [|c phone IH]; [reflexivity|]. cbn [filter_chars].
  destruct (is_plus c); [discriminate|]. intros Hno. rewrite orb_false_r.
  destruct (is_digit c); rewrite (IH Hno); reflexivity.
Qed.

Lemma us_format_10 (d : string) :
  String.length d = 10 -> Batch.us_format 0 d = us_number d.
Proof.
  intros Hlen. do 10 (destruct d as [|? d]; [discriminate Hlen|]).
  destruct d; [reflexivity | discriminate Hlen].
Qed.

Lemma us_format_11 (d : string) :
  String.length d = 11 -> Batch.us_format 1 d = us_number (substring 1 10 d).
Proof.
  intros Hlen. do 11 (destruct d as [|? d]; [discriminate Hlen|]).
  destruct d; [reflexivity | discriminate Hlen].
Qed.

Lemma formatPhone_no_plus (phone : string) :
  filter_chars is_plus phone = "" ->
  Batch.formatPhone (Some phone) = formatPhone_spec phone /\
  Single.formatPhone (Some phone) =
    match phone with
    | EmptyString => None
    | _ => Some (formatPhone_spec phone)
    end.
Proof.
  intros Hno. destruct phone as [|c rest] eqn:Hphone; [split; reflexivity|].
  rewrite <- Hphone in *.
  assert (Ht : truthy (Some phone) = true) by (rewrite Hphone; reflexivity).
  unfold Batch.formatPhone, Single.formatPhone, formatPhone_spec.
  change Single.cleaned_phone with Batch.cleaned_phone.
  change Single.us_format with Batch.us_format.
  rewrite Ht. cbn [negb]. change (str (Some phone)) with phone.
  rewrite (filter_chars_no_plus phone Hno). unfold startsWith.
  destruct (Nat.eqb_spec (String.length (digits_of phone)) 10) as [H10 | _].
  - rewrite (us_format_10 _ H10). split; reflexivity.
  - destruct (Nat.eqb_spec (String.length (digits_of phone)) 11) as [H11 | _].
    + cbn [andb]. destruct (String.prefix "1" (digits_of phone)).
      * rewrite (us_format_11 _ H11). split; reflexivity.
      * split; reflexivity.
    + split; reflexivity.
Qed.

Lemma formatPhone_unchanged (phone : string) :
  String.length (Batch.cleaned_phone phone) <> 10 ->
  (String.length (Batch.cleaned_phone phone) = 11 ->
   startsWith "1" (Batch.cleaned_phone phone) = false) ->
  Batch.formatPhone (Some phone) = phone /\
  Single.formatPhone (Some phone) =
    match phone with
    | EmptyString => None
    | _ => Some phone
    end.
Proof.
  intros H10 H11. destruct phone as [|c rest] eqn:Hphone; [split; reflexivity|].
  rewrite <- Hphone in *.
  assert (Ht : truthy (Some phone) = true) by (rewrite Hphone; reflexivity).
  unfold Batch.formatPhone, Single.formatPhone.
  change Single.cleaned_phone with Batch.cleaned_phone.
  rewrite Ht. cbn [negb]. change (str (Some phone)) with phone.
  destruct (Nat.eqb_spec (String.length (Batch.cleaned_phone phone)) 10) as [? | _];
    [contradiction|].
  destruct (Nat.eqb_spec (String.length (Batch.cleaned_phone phone)) 11) as [Heq | _].
  - rewrite (H11 Heq). split; reflexivity.
  - split; reflexivity.
Qed.

(** C1, as amended. For every phone text without a plus sign: when exactly
    ten digits remain after stripping, the result is ["(AAA) BBB-CCCC"] built
    from them; when exactly eleven remain and the first is ["1"], that one is
    dropped and the other ten are formatted the same way; otherwise the text
    is returned as it is.  The batch formatter gives this string; the
    single-town formatter gives it too, except that it answers [null] for the
    empty text.  A text, with or without plus signs, whose digits and plus
    signs together are neither ten characters, nor eleven beginning with
    ["1"], is returned as it is. *)
Theorem formatPhone_without_plus (phone : string) :
  (filter_chars is_plus phone = "" ->
   Batch.formatPhone (Some phone) = formatPhone_spec phone /\
   Single.formatPhone (Some phone) =
     match phone with
     | EmptyString => None
     | _ => Some (formatPhone_spec phone)
     end) /\
  (String.length (Batch.cleaned_phone phone) <> 10 ->
   (String.length (Batch.cleaned_phone phone) = 11 ->
    startsWith "1" (Batch.cleaned_phone phone) = false) ->
   Batch.formatPhone (Some phone) = phone /\
   Single.formatPhone (Some phone) =
     match phone with
     | EmptyString => None
     | _ => Some phone
     end).
Proof.
  split; [apply formatPhone_no_plus | apply formatPhone_unchanged].
Qed.

Lemma formatPhone_without_plus_witness :
  Batch.formatPhone (Some "609-555-1234") = "(609) 555-1234" /\
  Batch.formatPhone (Some "16095551234") = "(609) 555-1234" /\
  Batch.formatPhone (Some "555-1234") = "555-1234" /\
  Single.formatPhone (Some "609-555-1234") = Some "(609) 555-1234" /\
  Batch.formatPhone (Some "+6095551234") = "+6095551234".
Proof.
  destruct (proj1 (formatPhone_without_plus "609-555-1234") eq_refl) as [H1 H1'].
  destruct (proj1 (formatPhone_without_plus "16095551234") eq_refl) as [H2 _].
  destruct (proj1 (formatPhone_without_plus "555-1234") eq_refl) as [H3 _].
  assert (H4 : Batch.formatPhone (Some "+6095551234") = "+6095551234").
  { apply (proj2 (formatPhone_without_plus "+6095551234")).
    - vm_compute. discriminate.
    - intros _. reflexivity. }
  exact (conj H1 (conj H2 (conj H3 (conj H1' H4)))).
Defined.

(** C1 as stated fails on a text with a plus sign: ten digits remain of
    ["+6095551234"], yet both formatters return the text as it is. *)
Lemma formatPhone_plus_counterexample :
  String.length (digits_of "+6095551234") = 10 /\
  formatPhone_spec "+6095551234" = "(609) 555-1234" /\
  Batch.formatPhone (Some "+6095551234") = "+6095551234" /\
  Single.formatPhone (Some "+6095551234") = Some "+6095551234" /\
  Batch.formatPhone (Some "+6095551234") <> formatPhone_spec "+6095551234".
Proof. repeat split; vm_compute; try reflexivity. discriminate. Qed.

(** ** Identifier derivation *)

Lemma trim_end_no_space (s : string) : filter_chars is_space s = "" -> trim_end s = s.
Proof.
  induction s as [|c s IH]; [reflexivity|]. cbn [filter_chars trim_end].
  destruct (is_space c) eqn:Hc; [discriminate|]. intros Hs. rewrite (IH Hs).
  destruct s; rewrite ?Hc; reflexivity.
Qed.

Lemma trim_no_space (s : string) : filter_chars is_space s = "" -> trim s = s.
Proof.
  intros Hs. unfold trim.
  assert (Hd : drop_run is_space s = s).
  { destruct s as [|c s]; [reflexivity|]. cbn [filter_chars drop_run] in *.
    destruct (is_space c); [discriminate | reflexivity]. }
  rewrite Hd. apply trim_end_no_space, Hs.
Qed.

Lemma replace_runs_space_no_space (in_run : bool) (s : string) :
  filter_chars is_space (replace_runs_from in_run is_space "-" s) = "".
Proof.
  revert in_run. induction s as [|c s IH]; intros in_run; [reflexivity|].
  cbn [replace_runs_from]. destruct (is_space c) eqn:Hc.
  - destruct in_run; [apply IH|]. cbn [filter_chars].
    change (is_space "-") with false. cbn iota. apply IH.
  - cbn [filter_chars]. rewrite Hc. apply IH.
Qed.

Lemma replace_runs_hyphen_no_space (in_run : bool) (s : string) :
  filter_chars is_space s = "" ->
  filter_chars is_space (replace_runs_from in_run is_hyphen "-" s) = "".
Proof.
  revert in_run. induction s as [|c s IH]; intros in_run; [reflexivity|].
  cbn [filter_chars replace_runs_from]. destruct (is_space c) eqn:Hc; [discriminate|].
  intros Hs. destruct (is_hyphen c).
  - destruct in_run; [apply IH, Hs|]. cbn [filter_chars].
    change (is_space "-") with false. cbn iota. apply IH, Hs.
  - cbn [filter_chars]. rewrite Hc. apply IH, Hs.
Qed.

(** The final [trim] of [slugify] never removes anything: by then no white
    space is left. *)
Lemma slugify_trim_removes_nothing (name : string) :
  Batch.slugify name =
  replace_runs is_hyphen "-"
    (replace_runs is_space "-"
       (filter_chars (fun c => is_lower c || is_digit c || is_space c || is_hyphen c)
          (toLowerCase name))).
Proof.
  unfold Batch.slugify. apply trim_no_space.
  apply replace_runs_hyphen_no_space, replace_runs_space_no_space.
Qed.

(** C2. The identifiers of the towns named [" Trenton"], ["& Sons"] and
    ["Wildwood City "] are ["-trenton-nj"], ["-sons-nj"] and
    ["wildwood-city--nj"]: a hyphen at the start, or right before the
    appended suffix, is not trimmed.  The identifiers of
    ["Cherry Hill Township"] and ["Wildwood City"] are ["cherry-hill-nj"] and
    ["wildwood-nj"]. *)
Theorem slug_keeps_outer_hyphens {R : Runtime} :
  Batch.slug (Batch.town_of_element (named " Trenton")) = "-trenton-nj" /\
  Batch.slug (Batch.town_of_element (named "& Sons")) = "-sons-nj" /\
  Batch.slug (Batch.town_of_element (named "Wildwood City ")) = "wildwood-city--nj" /\
  Batch.slug (Batch.town_of_element (named "Cherry Hill Township")) = "cherry-hill-nj" /\
  Batch.slug (Batch.town_of_element (named "Wildwood City")) = "wildwood-nj".
Proof. repeat split; vm_compute; reflexivity. Qed.

(** ** The address formatter *)

Lemma address_parts_spec (tags : gmap string string) (town : string) :
  join ", " (Batch.address_parts tags town) = address_spec tags town "NJ".
Proof.
  unfold Batch.address_parts, address_spec.
  destruct (truthy (tags !! "addr:housenumber")), (truthy (tags !! "addr:street")),
    (truthy (tags !! "addr:postcode")); reflexivity.
Qed.

Lemma formatAddress_spec (tags : gmap string string) :
  Single.formatAddress tags = address_spec tags "Trenton" "NJ".
Proof.
  unfold Single.formatAddress, address_spec.
  destruct (truthy (tags !! "addr:housenumber")), (truthy (tags !! "addr:street")),
    (truthy (tags !! "addr:postcode")); reflexivity.
Qed.

(** C5. For every tag mapping and town display name the address is
    ["<housenumber> <street>"] when both tags are present, the street alone
    when only the street is, and no first segment otherwise; then the town
    and ["NJ"]; a postal code, when present, follows the last segment after
    a space; the segments are joined with [", "].  For the element of Joe's
    Deli in a town displayed as ["Trenton"] the batch pipeline produces the
    one record with name ["Joe's Deli"], category ["Deli"], address
    ["12 Main St, Trenton, NJ 08608"] and phone ["(609) 555-1234"], and so
    does the single-town pipeline. *)
Theorem address_and_scenario {R : Runtime} :
  (forall (tags : gmap string string) (t : Batch.town),
     Batch.b_address (Batch.business_of_element t {| el_type := "node"; el_id := 0; el_tags := Some tags |})
     = address_spec tags (Batch.displayName t) "NJ") /\
  (forall tags : gmap string string,
     Single.formatAddress tags = address_spec tags "Trenton" "NJ") /\
  (forall (name slug type : string) (population : option number) (osmId : Z),
     Batch.businesses_of_elements
       {| Batch.name := name; Batch.displayName := "Trenton"; Batch.slug := slug;
          Batch.population := population; Batch.osmId := osmId; Batch.type := type |}
       [joes_deli]
     = [ {| Batch.b_name := "Joe's Deli"; Batch.b_category := "Deli";
            Batch.b_address := "12 Main St, Trenton, NJ 08608";
            Batch.b_phone := "(609) 555-1234";
            Batch.b_email := ""; Batch.b_website := ""; Batch.b_hours := "";
            Batch.b_rating := None; Batch.b_review_count := None;
            Batch.b_claimed := false; Batch.b_featured := false |} ]) /\
  Single.businesses_of_elements [joes_deli]
  = [ {| Single.b_name := "Joe's Deli"; Single.b_category := "Deli";
         Single.b_address := "12 Main St, Trenton, NJ 08608";
         Single.b_phone := Some "(609) 555-1234"; Single.b_website := None |} ].
Proof.
  split; [|split; [|split]].
  - intros tags t. apply address_parts_spec.
  - apply formatAddress_spec.
  - intros. vm_compute. reflexivity.
  - vm_compute. reflexivity.
Qed.

(** ** Deduplication *)

Section FirstOccurrences.
Context {A K : Type} `{EqDecision K} (key : A -> K) (same : A -> A -> bool).
Hypothesis same_key : forall b x, same b x = true <-> key b = key x.

Lemma existsb_same (x : A) (pre : list A) :
  existsb (fun b => same b x) pre = true <-> key x ∈ (key <$> pre).
Proof.
  rewrite existsb_exists, list_elem_of_fmap. split.
  - intros (b & Hin & Hs). exists b. split; [symmetry; apply same_key, Hs|].
    apply list_elem_of_In, Hin.
  - intros (b & Hk & Hin). exists b. split; [apply list_elem_of_In, Hin|].
    apply same_key. symmetry. exact Hk.
Qed.

Lemma findIndex_from_early (p : A -> bool) (i : Z) (pre rest : list A) :
  existsb p pre = true ->
  (JsArray.findIndex_from p i (pre ++ rest) < i + Z.of_nat (length pre))%Z.
Proof.
  revert i. induction pre as [|y pre IH]; intros i; [discriminate|].
  cbn [existsb app JsArray.findIndex_from length]. destruct (p y); [lia|].
  intros Hex. specialize (IH (i + 1)%Z Hex). lia.
Qed.

Lemma findIndex_from_here (p : A -> bool) (i : Z) (pre : list A) (x : A) (post : list A) :
  existsb p pre = false -> p x = true ->
  JsArray.findIndex_from p i (pre ++ x :: post) = (i + Z.of_nat (length pre))%Z.
Proof.
  revert i. induction pre as [|y pre IH]; intros i Hex Hx.
  - cbn. rewrite Hx. lia.
  - cbn [existsb app JsArray.findIndex_from length] in *. destruct (p y); [discriminate|].
    rewrite (IH (i + 1)%Z Hex Hx). lia.
Qed.

(** The test of the deduplicating filter, at the element that follows
    [pre]: it holds exactly when no record of [pre] has the same key. *)
Lemma first_index_test (pre : list A) (x : A) (post : list A) :
  Z.eqb (Z.of_nat (length pre))
        (JsArray.findIndex (fun b => same b x) (pre ++ x :: post))
  = negb (existsb (fun b => same b x) pre).
Proof.
  unfold JsArray.findIndex. destruct (existsb (fun b => same b x) pre) eqn:Hex.
  - pose proof (findIndex_from_early (fun b => same b x) 0 pre (x :: post) Hex).
    apply Z.eqb_neq. lia.
  - rewrite findIndex_from_here; [apply Z.eqb_eq; lia | exact Hex |].
    apply same_key. reflexivity.
Qed.

Lemma filter_from_keep_first (self post pre : list A) (seen : list K) :
  self = pre ++ post ->
  (forall k, k ∈ seen <-> k ∈ (key <$> pre)) ->
  JsArray.filter_from
    (fun x i => Z.eqb i (JsArray.findIndex (fun b => same b x) self))
    (Z.of_nat (length pre)) post
  = keep_first key seen post.
Proof.
  revert pre seen. induction post as [|x post IH]; intros pre seen Hself Hseen; [reflexivity|].
  cbn [JsArray.filter_from keep_first].
  assert (Hnext : self = (pre ++ [x]) ++ post) by (rewrite <- app_assoc; exact Hself).
  assert (Hlen : (Z.of_nat (length pre) + 1)%Z = Z.of_nat (length (pre ++ [x]))).
  { rewrite length_app. cbn. lia. }
  rewrite Hself at 1. rewrite first_index_test, Hlen.
  destruct (decide (key x ∈ seen)) as [Hin | Hnin].
  - apply Hseen, existsb_same in Hin. rewrite Hin. cbn [negb].
    apply IH; [exact Hnext|]. intros k. rewrite Hseen, fmap_app, elem_of_app.
    cbn [fmap list_fmap]. rewrite list_elem_of_singleton. apply existsb_same in Hin.
    split; [tauto|]. intros [Hk | ->]; assumption.
  - destruct (existsb (fun b => same b x) pre) eqn:Hex.
    + exfalso. apply Hnin, Hseen, existsb_same, Hex.
    + cbn [negb]. f_equal. apply IH; [exact Hnext|]. intros k.
      rewrite elem_of_cons, Hseen, fmap_app, elem_of_app. cbn [fmap list_fmap].
      rewrite list_elem_of_singleton. tauto.
Qed.

Lemma filter_indexed_keep_first (self : list A) :
  JsArray.filter_indexed
    (fun x i self => Z.eqb i (JsArray.findIndex (fun b => same b x) self)) self
  = keep_first key [] self.
Proof.
  unfold JsArray.filter_indexed.
  apply (filter_from_keep_first self self [] []); [reflexivity|].
  intros k. cbn. reflexivity.
Qed.

Lemma keep_first_sublist (seen : list K) (l : list A) :
  sublist (keep_first key seen l) l.
Proof.
  revert seen. induction l as [|x l IH]; intros seen; cbn [keep_first]; [constructor|].
  destruct (decide (key x ∈ seen)); constructor; apply IH.
Qed.

Lemma keep_first_fresh (seen : list K) (l : list A) (x : A) :
  x ∈ keep_first key seen l -> key x ∉ seen.
Proof.
  revert seen. induction l as [|y l IH]; intros seen; cbn [keep_first]; [inversion 1|].
  destruct (decide (key y ∈ seen)) as [Hin | Hnin]; [apply IH|].
  intros Hx. apply elem_of_cons in Hx as [-> | Hx]; [exact Hnin|].
  apply IH in Hx. intros Hs. apply Hx. apply elem_of_cons. right. exact Hs.
Qed.

Lemma keep_first_NoDup (seen : list K) (l : list A) :
  NoDup ((key <$> keep_first key seen l)).
Proof.
  revert seen. induction l as [|y l IH]; intros seen; cbn [keep_first]; [constructor|].
  destruct (decide (key y ∈ seen)); [apply IH|]. rewrite fmap_cons. constructor; [|apply IH].
  intros Hin. apply list_elem_of_fmap in Hin as (b & Hk & Hb).
  apply keep_first_fresh in Hb. apply Hb. rewrite <- Hk. apply elem_of_cons. left. reflexivity.
Qed.

Lemma keep_first_covers (seen : list K) (l : list A) (x : A) :
  x ∈ l -> key x ∈ seen \/ exists x', x' ∈ keep_first key seen l /\ key x' = key x.
Proof.
  revert seen. induction l as [|y l IH]; intros seen Hx; [inversion Hx|].
  cbn [keep_first]. apply elem_of_cons in Hx as [-> | Hx].
  - destruct (decide (key y ∈ seen)); [left; assumption|].
    right. exists y. split; [apply elem_of_cons; left|]; reflexivity.
  - destruct (decide (key y ∈ seen)); [apply IH, Hx|].
    destruct (IH (key y :: seen) Hx) as [Hs | (x' & Hx' & Hk)].
    + apply elem_of_cons in Hs as [Hs | Hs]; [|left; exact Hs].
      right. exists y. split; [apply elem_of_cons; left; reflexivity | symmetry; exact Hs].
    + right. exists x'. split; [apply elem_of_cons; right; exact Hx' | exact Hk].
Qed.

End FirstOccurrences.

(** ** Sorting *)

Section Sort.
Context {A : Type} (cmp : A -> A -> Z).

Lemma insert_by_Permutation (x : A) (l : list A) :
  Permutation (JsArray.insert_by cmp x l) (x :: l).
Proof.
  induction l as [|y l IH]; [reflexivity|]. cbn [JsArray.insert_by].
  destruct (cmp x y <=? 0)%Z; [reflexivity|].
  rewrite IH. apply perm_swap.
Qed.

Lemma sort_Permutation (l : list A) : Permutation (JsArray.sort cmp l) l.
Proof.
  induction l as [|x l IH]; [reflexivity|].
  unfold JsArray.sort in *. cbn [foldr]. rewrite insert_by_Permutation, IH. reflexivity.
Qed.


Hypothesis cmp_total : forall a b, (cmp a b <= 0)%Z \/ (cmp b a <= 0)%Z.
Hypothesis cmp_trans : forall a b c, (cmp a b <= 0)%Z -> (cmp b c <= 0)%Z -> (cmp a c <= 0)%Z.

Lemma insert_by_HdRel (a x : A) (l : list A) :
  (cmp a x <= 0)%Z ->
  HdRel (fun a b => (cmp a b <= 0)%Z) a l ->
  HdRel (fun a b => (cmp a b <= 0)%Z) a (JsArray.insert_by cmp x l).
Proof.
  intros Hax Hal. destruct l as [|y l]; cbn [JsArray.insert_by]; [constructor; exact Hax|].
  destruct (cmp x y <=? 0)%Z; constructor; [exact Hax|]. inversion Hal; assumption.
Qed.

Lemma insert_by_Sorted (x : A) (l : list A) :
  Sorted (fun a b => (cmp a b <= 0)%Z) l ->
  Sorted (fun a b => (cmp a b <= 0)%Z) (JsArray.insert_by cmp x l).
Proof.
  induction 1 as [|y l Hl IH Hy]; cbn [JsArray.insert_by]; [repeat constructor|].
  destruct (Z.leb_spec (cmp x y) 0) as [Hxy | Hxy].
  - constructor; [constructor; assumption|]. constructor. exact Hxy.
  - constructor; [exact IH|]. apply insert_by_HdRel; [|exact Hy].
    destruct (cmp_total x y) as [Hle | Hle]; [lia | exact Hle].
Qed.

Lemma sort_Sorted (l : list A) :
  Sorted (fun a b => (cmp a b <= 0)%Z) (JsArray.sort cmp l).
Proof.
  induction l as [|x l IH]; [constructor|].
  unfold JsArray.sort in *. cbn [foldr]. apply insert_by_Sorted, IH.
Qed.

Lemma sort_StronglySorted (l : list A) :
  StronglySorted (fun a b => (cmp a b <= 0)%Z) (JsArray.sort cmp l).
Proof.
  apply Sorted_StronglySorted; [|apply sort_Sorted].
  intros a b c. apply cmp_trans.
Qed.

End Sort.

Section Collation.
Context {R : Runtime} {HC : ConsistentCollation R}.






End Collation.

Lemma dedup_keep_first {R : Runtime} (bs : list Batch.business) :
  Batch.dedup bs = keep_first name_and_address [] bs.
Proof.
  unfold Batch.dedup.
  apply (filter_indexed_keep_first name_and_address
           (fun b x => String.eqb (Batch.b_name b) (Batch.b_name x)
                       && String.eqb (Batch.b_address b) (Batch.b_address x))).
  intros b x. unfold name_and_address.
  rewrite andb_true_iff, !String.eqb_eq. split; [intros [-> ->]; reflexivity|].
  intros Heq. injection Heq as -> ->. split; reflexivity.
Qed.

Lemma dedup_single_keep_first (bs : list Single.business) :
  Single.dedup bs = keep_first name_and_address_single [] bs.
Proof.
  unfold Single.dedup.
  apply (filter_indexed_keep_first name_and_address_single
           (fun b x => String.eqb (Single.b_name b) (Single.b_name x)
                       && String.eqb (Single.b_address b) (Single.b_address x))).
  intros b x. unfold name_and_address_single.
  rewrite andb_true_iff, !String.eqb_eq. split; [intros [-> ->]; reflexivity|].
  intros Heq. injection Heq as -> ->. split; reflexivity.
Qed.



(** ** The order of the result *)

Lemma code_unit_consistent : ConsistentCollation code_unit_runtime.
Proof.
  assert (Hasym : forall a b, String_as_OT.lt a b -> String_as_OT.lt b a -> False).
  { intros a b Hab Hba. apply (StrictOrder_Irreflexive a). etransitivity; eassumption. }
  split; cbn [localeCompare code_unit_runtime]; unfold code_unit_compare.
  - intros a b.
    destruct (String_as_OT.compare_spec a b) as [Hab | Hab | Hab],
             (String_as_OT.compare_spec b a) as [Hba | Hba | Hba];
      try reflexivity; unfold String_as_OT.eq in *; subst; exfalso;
      try (apply (StrictOrder_Irreflexive (R := String_as_OT.lt) _ Hab));
      try (apply (StrictOrder_Irreflexive (R := String_as_OT.lt) _ Hba));
      eapply Hasym; eassumption.
  - intros a b c.
    destruct (String_as_OT.compare_spec a b) as [Hab | Hab | Hab]; [| |lia];
      destruct (String_as_OT.compare_spec b c) as [Hbc | Hbc | Hbc]; try lia;
      destruct (String_as_OT.compare_spec a c) as [Hac | Hac | Hac]; try lia;
      intros _ _; exfalso; unfold String_as_OT.eq in *; subst;
      first [ eapply (StrictOrder_Irreflexive (R := String_as_OT.lt)); eassumption
            | eapply Hasym; eassumption
            | eapply Hasym; [etransitivity; eassumption | eassumption] ].
Qed.




(** ** Empty responses *)



(** ** The batch loop *)

Section Orchestrator.
Context {R : Runtime} {host : Batch.Host}.

(** [processTown] never throws. *)
Lemma processTown_returns (t : Batch.town) (m : Batch.machine) :
  exists r m', Batch.processTown t m = (inr r, m').
Proof.
  unfold Batch.processTown, Batch.bind, Batch.try_catch, Batch.read_world,
    Batch.console_log, Batch.console_error, Batch.ret.
  destruct (Batch.existsSync (Batch.data_file (Batch.slug t)) (Batch.world m)); [eauto|].
  destruct (Batch.fetchBusinessesForTown t m) as [[msg | bs] m1]; [eauto|].
  destruct (Batch.generateDataFile t bs m1) as [[msg | p1] m2]; [eauto|].
  destruct (Batch.generateContentFile t m2) as [[msg | p2] m3]; eauto.
Qed.

Lemma process_batch_returns (batch : list Batch.town) (c : Batch.counters)
    (m : Batch.machine) :
  exists results m',
    Batch.process_batch batch c m = (inr (foldl Batch.count c results), m') /\
    Forall2 outcome_of batch results.
Proof.
  revert c m. induction batch as [|t batch IH]; intros c m.
  - exists [], m. split; [reflexivity | constructor].
  - destruct (processTown_returns t m) as (r & m1 & Hr).
    cbn [Batch.process_batch]. unfold Batch.bind at 1. rewrite Hr.
    unfold Batch.bind at 1.
    destruct (Batch.sleep_ms Batch.RATE_LIMIT_MS m1) as [[msg | []] m2] eqn:Hs;
      [unfold Batch.sleep_ms, Batch.on_world in Hs; discriminate Hs|].
    destruct (IH (Batch.count c r) m2) as (results & m' & Hrun & Hall).
    exists (r :: results), m'. split; [exact Hrun|].
    constructor; [exists m, m1; exact Hr | exact Hall].
Qed.

Lemma process_batches_returns (towns : list Batch.town) (i : nat) (c : Batch.counters) :
  forall m : Batch.machine,
  exists results m',
    Batch.process_batches towns i c m = (inr (foldl Batch.count c results), m') /\
    Forall2 outcome_of (drop i towns) results.
Proof.
  funelim (Batch.process_batches towns i c); intros m.
  - destruct (process_batch_returns (take Batch.BATCH_SIZE (drop i towns)) c
                (snd (Batch.console_log
                        (Batch.nl +:+ "--- Batch " +:+ pretty (i / Batch.BATCH_SIZE + 1) +:+ "/"
                         +:+ pretty (Batch.ceil_div (length towns) Batch.BATCH_SIZE)
                         +:+ " ---" +:+ Batch.nl) m)))
      as (r1 & m1 & Hr1 & Hall1).
    assert (Hpause : exists m2,
              (if decide (i + Batch.BATCH_SIZE < length towns)
               then Batch.bind (Batch.console_log (Batch.nl +:+ "Pausing between batches..."))
                      (fun _ => Batch.sleep_ms 5000)
               else Batch.ret tt) m1 = (inr tt, m2)).
    { destruct (decide (i + Batch.BATCH_SIZE < length towns)); eexists; reflexivity. }
    destruct Hpause as (m2 & Hpause).
    destruct (H tt (foldl Batch.count c r1) tt m2 m2) as (r2 & m' & Hr2 & Hall2).
    exists (r1 ++ r2), m'. split.
    + unfold Batch.bind at 1. cbn [Batch.console_log].
      unfold Batch.bind at 1. cbn [snd Batch.console_log] in Hr1. rewrite Hr1.
      unfold Batch.bind at 1. rewrite Hpause. rewrite foldl_app. exact Hr2.
    + rewrite <- (take_drop Batch.BATCH_SIZE (drop i towns)), drop_drop.
      apply Forall2_app; [exact Hall1|].
      exact Hall2.
  - exists [], m. split; [reflexivity|].
    rewrite drop_ge by lia. constructor.
Qed.

Lemma count_fields (results : list Batch.outcome) (c : Batch.counters) :
  Batch.totalProcessed (foldl Batch.count c results)
    = Batch.totalProcessed c + length (List.filter processed results) /\
  Batch.totalSkipped (foldl Batch.count c results)
    = Batch.totalSkipped c + length (List.filter Batch.skipped results) /\
  Batch.totalBusinesses (foldl Batch.count c results)
    = Batch.totalBusinesses c + sum_list (map Batch.businesses (List.filter processed results)) /\
  Batch.totalErrors (foldl Batch.count c results)
    = Batch.totalErrors c + length (List.filter errored results).
Proof.
  revert c. induction results as [|r results IH]; intros c; [cbn; lia|].
  cbn [foldl List.filter]. destruct (IH (Batch.count c r)) as (Hp & Hs & Hb & He).
  rewrite Hp, Hs, Hb, He. unfold Batch.count, processed, errored.
  destruct (Batch.skipped r), (Batch.error r); cbn; lia.
Qed.

Lemma foldl_count_tally (results : list Batch.outcome) :
  foldl Batch.count Batch.no_counts results = tally results.
Proof.
  destruct (count_fields results Batch.no_counts) as (Hp & Hs & Hb & He).
  destruct (foldl Batch.count Batch.no_counts results) as [p s b e].
  cbn in Hp, Hs, Hb, He. unfold tally. subst. reflexivity.
Qed.

Lemma tally_total (results : list Batch.outcome) :
  Batch.totalSkipped (tally results) + Batch.totalProcessed (tally results)
    + Batch.totalErrors (tally results) = length results.
Proof.
  unfold tally. cbn. induction results as [|r results IH]; [reflexivity|].
  cbn [List.filter length]. unfold processed, errored in *.
  destruct (Batch.skipped r), (Batch.error r); cbn; lia.
Qed.

Lemma print_summary_appends (towns : list Batch.town) (c : Batch.counters)
    (m : Batch.machine) :
  exists m', Batch.print_summary towns c m = (inr tt, m') /\
             Batch.stdout m' = Batch.stdout m ++ summary_block (length towns) c.
Proof.
  eexists. split; [reflexivity|]. cbn. rewrite <- !app_assoc. reflexivity.
Qed.

End Orchestrator.

(** C9. For every town list and every behaviour of the outside world, the
    batch run ends normally; each town has one outcome, the one [processTown]
    returned for it, and is counted in exactly one of the counters skipped,
    processed and errored, so that these three add up to the number of towns;
    the business counter is the sum of the business counts of the processed
    towns only; and the run ends by printing the summary block with the five
    figures, whatever the outcomes were. *)
Theorem batch_counters {R : Runtime} {host : Batch.Host} (towns : list Batch.town)
    (m : Batch.machine) :
  exists (results : list Batch.outcome) (c : Batch.counters) (m' : Batch.machine)
         (printed : list string),
    Batch.run_batches towns m = (inr c, m') /\
    Forall2 outcome_of towns results /\
    c = tally results /\
    Batch.totalSkipped c + Batch.totalProcessed c + Batch.totalErrors c = length towns /\
    Batch.totalBusinesses c
      = sum_list (map Batch.businesses (List.filter processed results)) /\
    Batch.stdout m' = printed ++ summary_block (length towns) c.
Proof.
  unfold Batch.run_batches, Batch.bind. cbn [Batch.console_log].
  match goal with
  | |- context [Batch.process_batches towns 0 Batch.no_counts ?m0] =>
      destruct (process_batches_returns towns 0 Batch.no_counts m0)
        as (results & m1 & Hrun & Hall)
  end.
  rewrite drop_0 in Hall. rewrite foldl_count_tally in Hrun.
  destruct (print_summary_appends towns (tally results) m1) as (m' & Hprint & Hout).
  exists results, (tally results), m', (Batch.stdout m1).
  split; [|split; [exact Hall|split; [reflexivity|split; [|split; [reflexivity | exact Hout]]]]].
  - rewrite Hrun, Hprint. reflexivity.
  - rewrite tally_total. symmetry. eapply Forall2_length, Hall.
Qed.

(** * Further properties of the generators *)

(** ** Character classes *)

Ltac classify :=
  unfold slug_char, is_lower, is_upper, is_digit, is_space, is_hyphen, is_plus,
    is_underscore, between in *;
  repeat match goal with
         | |- context [Nat.leb ?a ?b] => destruct (Nat.leb_spec a b)
         | |- context [Nat.eqb ?a ?b] => destruct (Nat.eqb_spec a b)
         | H : context [Nat.leb ?a ?b] |- _ => destruct (Nat.leb_spec a b)
         | H : context [Nat.eqb ?a ?b] |- _ => destruct (Nat.eqb_spec a b)
         end;
  cbn in *; try reflexivity; try discriminate; try lia.

Lemma slug_char_not_space (c : ascii) : slug_char c = true -> is_space c = false.
Proof. intros H. classify. Qed.

Lemma slug_char_not_upper (c : ascii) : slug_char c = true -> is_upper c = false.
Proof. intros H. classify. Qed.

Lemma kept_not_space_slug_char (c : ascii) :
  is_lower c || is_digit c || is_space c || is_hyphen c = true ->
  is_space c = false -> slug_char c = true.
Proof. intros H Hs. classify. Qed.

Lemma is_hyphen_eq (c : ascii) : is_hyphen c = true -> c = "-"%char.
Proof.
  unfold is_hyphen, code. intros H. apply Nat.eqb_eq in H.
  rewrite <- (ascii_nat_embedding c), H. reflexivity.
Qed.

Lemma all_chars_filter (p : ascii -> bool) (s : string) :
  all_chars p (filter_chars p s) = true.
Proof.
  induction s as [|c s IH]; [reflexivity|]. cbn [filter_chars].
  destruct (p c) eqn:Hc; [|exact IH]. cbn [all_chars]. rewrite Hc. exact IH.
Qed.

Lemma filter_chars_all (p : ascii -> bool) (s : string) :
  all_chars p s = true -> filter_chars p s = s.
Proof.
  induction s as [|c s IH]; [reflexivity|]. cbn [all_chars filter_chars].
  intros H. apply andb_prop in H as [Hc Hs]. rewrite Hc, (IH Hs). reflexivity.
Qed.

Lemma all_chars_impl (p q : ascii -> bool) (s : string) :
  (forall c, p c = true -> q c = true) -> all_chars p s = true -> all_chars q s = true.
Proof.
  intros Himp. induction s as [|c s IH]; [reflexivity|]. cbn [all_chars].
  intros H. apply andb_prop in H as [Hc Hs]. rewrite (Himp c Hc), (IH Hs). reflexivity.
Qed.

Lemma replace_runs_space_slug_chars (in_run : bool) (s : string) :
  all_chars (fun c => is_lower c || is_digit c || is_space c || is_hyphen c) s = true ->
  all_chars slug_char (replace_runs_from in_run is_space "-" s) = true.
Proof.
  revert in_run. induction s as [|c s IH]; intros in_run; [reflexivity|].
  cbn [all_chars replace_runs_from]. intros H. apply andb_prop in H as [Hc Hs].
  pose proof (kept_not_space_slug_char c Hc) as Hk.
  destruct (is_space c).
  - destruct in_run; [apply IH, Hs|]. cbn [all_chars].
    change (slug_char "-") with true. apply IH, Hs.
  - cbn [all_chars]. rewrite (Hk eq_refl). apply IH, Hs.
Qed.

Lemma replace_runs_hyphen_slug_chars (in_run : bool) (s : string) :
  all_chars slug_char s = true ->
  all_chars slug_char (replace_runs_from in_run is_hyphen "-" s) = true.
Proof.
  revert in_run. induction s as [|c s IH]; intros in_run; [reflexivity|].
  cbn [all_chars replace_runs_from]. intros H. apply andb_prop in H as [Hc Hs].
  destruct (is_hyphen c).
  - destruct in_run; [apply IH, Hs|]. cbn [all_chars].
    change (slug_char "-") with true. apply IH, Hs.
  - cbn [all_chars]. rewrite Hc. apply IH, Hs.
Qed.

Lemma replace_runs_no_adjacent (p : ascii -> bool) (d : ascii) (in_run : bool) (s : string) :
  p d = true -> no_adjacent p in_run (replace_runs_from in_run p d s) = true.
Proof.
  intros Hd. revert in_run. induction s as [|c s IH]; intros in_run; [reflexivity|].
  cbn [replace_runs_from]. destruct (p c) eqn:Hc.
  - destruct in_run; [apply IH|]. cbn [no_adjacent]. rewrite Hd. apply IH.
  - cbn [no_adjacent]. rewrite Hc. apply IH.
Qed.

Lemma replace_runs_none (p : ascii -> bool) (d : ascii) (in_run : bool) (s : string) :
  all_chars (fun c => negb (p c)) s = true -> replace_runs_from in_run p d s = s.
Proof.
  revert in_run. induction s as [|c s IH]; intros in_run; [reflexivity|].
  cbn [all_chars replace_runs_from]. intros H. apply andb_prop in H as [Hc Hs].
  destruct (p c); [discriminate|]. rewrite (IH false Hs). reflexivity.
Qed.

Lemma replace_runs_single (p : ascii -> bool) (d : ascii) (in_run : bool) (s : string) :
  (forall c, p c = true -> c = d) ->
  no_adjacent p in_run s = true -> replace_runs_from in_run p d s = s.
Proof.
  intros Hp. revert in_run. induction s as [|c s IH]; intros in_run; [reflexivity|].
  cbn [no_adjacent replace_runs_from]. destruct (p c) eqn:Hc.
  - intros H. apply andb_prop in H as [Hrun Hs]. destruct in_run; [discriminate|].
    rewrite (IH true Hs), (Hp c Hc). reflexivity.
  - intros Hs. rewrite (IH false Hs). reflexivity.
Qed.

Lemma toLowerCase_slug_chars (s : string) :
  all_chars slug_char s = true -> toLowerCase s = s.
Proof.
  unfold toLowerCase. induction s as [|c s IH]; [reflexivity|].
  cbn [all_chars map_chars]. intros H. apply andb_prop in H as [Hc Hs].
  unfold lower_char at 1. rewrite (slug_char_not_upper c Hc), (IH Hs). reflexivity.
Qed.

Lemma slugify_slug_chars (name : string) :
  all_chars slug_char (Batch.slugify name) = true /\
  no_adjacent is_hyphen false (Batch.slugify name) = true.
Proof.
  rewrite slugify_trim_removes_nothing. unfold replace_runs. split.
  - apply replace_runs_hyphen_slug_chars, replace_runs_space_slug_chars, all_chars_filter.
  - apply replace_runs_no_adjacent. reflexivity.
Qed.

Lemma slugify_fixed (s : string) :
  all_chars slug_char s = true -> no_adjacent is_hyphen false s = true ->
  Batch.slugify s = s.
Proof.
  intros Hs Hadj. rewrite slugify_trim_removes_nothing. unfold replace_runs.
  rewrite (toLowerCase_slug_chars s Hs).
  rewrite filter_chars_all.
  2:{ eapply all_chars_impl; [|exact Hs]. intros c Hc. classify. }
  rewrite (replace_runs_none is_space).
  2:{ eapply all_chars_impl; [|exact Hs]. intros c Hc.
      rewrite (slug_char_not_space c Hc). reflexivity. }
  apply replace_runs_single; [apply is_hyphen_eq | exact Hadj].
Qed.

(** ** Identifiers *)

(** X1. The result of [slugify] is made of the characters [a-z], [0-9] and the
    hyphen only, and no two hyphens in it are neighbours. *)
Theorem slugify_url_safe (name : string) :
  all_chars slug_char (Batch.slugify name) = true /\
  no_adjacent is_hyphen false (Batch.slugify name) = true.
Proof. apply slugify_slug_chars. Qed.

(** X2. [slugify] changes nothing in its own results. *)
Theorem slugify_idempotent (name : string) :
  Batch.slugify (Batch.slugify name) = Batch.slugify name.
Proof.
  destruct (slugify_slug_chars name) as [Hs Hadj]. apply slugify_fixed; assumption.
Qed.

Lemma prefix_refl (s : string) : String.prefix s s = true.
Proof.
  induction s as [|c s IH]; [reflexivity|]. cbn [String.prefix].
  destruct (ascii_dec c c) as [_ | Hne]; [exact IH | contradiction].
Qed.

Lemma prefix_trans (a b c : string) :
  String.prefix a b = true -> String.prefix b c = true -> String.prefix a c = true.
Proof.
  revert b c. induction a as [|x a IH]; intros b c; [destruct c; reflexivity|].
  destruct b as [|y b]; [discriminate|]. destruct c as [|z c]; [discriminate|].
  cbn [String.prefix]. destruct (ascii_dec x y) as [-> | _]; [|discriminate].
  destruct (ascii_dec y z) as [-> | _]; [|discriminate].
  destruct (ascii_dec z z) as [_ | Hne]; [apply IH | contradiction].
Qed.

Lemma prefix_slice_upto (m : nat) (s : string) : String.prefix (slice_upto m s) s = true.
Proof.
  revert m. induction s as [|c s IH]; intros [|m]; try reflexivity.
  cbn [slice_upto String.prefix]. destruct (ascii_dec c c) as [_ | Hne]; [apply IH | contradiction].
Qed.

Lemma prefix_strip_suffix (suffix name : string) :
  String.prefix (Batch.strip_suffix suffix name) name = true.
Proof.
  unfold Batch.strip_suffix.
  destruct (_ && _); [apply prefix_slice_upto | apply prefix_refl].
Qed.

Lemma prefix_cleanName (name : string) : String.prefix (Batch.cleanName name) name = true.
Proof.
  unfold Batch.cleanName.
  eapply prefix_trans; [apply prefix_strip_suffix|].
  eapply prefix_trans; apply prefix_strip_suffix.
Qed.

Lemma all_chars_app (p : ascii -> bool) (a b : string) :
  all_chars p (a +:+ b) = all_chars p a && all_chars p b.
Proof.
  induction a as [|c a IH]; [reflexivity|].
  change (String c a +:+ b) with (String c (a +:+ b)). cbn [all_chars].
  rewrite IH, andb_assoc. reflexivity.
Qed.

(** ** The town list *)

(** X3. Every town record has a display name that is a beginning of its name
    and an identifier made of [a-z], [0-9] and hyphens that ends in ["-nj"];
    the record of an element that has a name has a non-empty name. *)
Theorem town_record_invariants {R : Runtime} (el : element) :
  String.prefix (Batch.displayName (Batch.town_of_element el))
                (Batch.name (Batch.town_of_element el)) = true /\
  all_chars slug_char (Batch.slug (Batch.town_of_element el)) = true /\
  (exists stem, Batch.slug (Batch.town_of_element el) = stem +:+ "-nj" /\
                no_adjacent is_hyphen false stem = true) /\
  (has_name el = true -> Batch.name (Batch.town_of_element el) <> "").
Proof.
  cbn [Batch.town_of_element Batch.displayName Batch.name Batch.slug].
  split; [apply prefix_cleanName|]. split; [|split].
  - rewrite all_chars_app. destruct (slugify_slug_chars
      (Batch.cleanName (str (tags_of el !! "name")))) as [Hs _]. rewrite Hs. reflexivity.
  - eexists. split; [reflexivity|]. apply slugify_slug_chars.
  - unfold has_name, tags_of. destruct (el_tags el) as [tags|]; [|discriminate].
    cbn. destruct (tags !! "name") as [[|c v]|]; discriminate.
Qed.

Lemma towns_keep_first {R : Runtime} (els : list element) :
  Permutation (Batch.towns_of_elements els)
    (keep_first Batch.slug [] (map Batch.town_of_element (List.filter has_name els))).
Proof.
  unfold Batch.towns_of_elements. rewrite sort_Permutation.
  rewrite (filter_indexed_keep_first Batch.slug
             (fun t town => String.eqb (Batch.slug t) (Batch.slug town))); [reflexivity|].
  intros b x. apply String.eqb_eq.
Qed.

(** X4. The town list holds, of the towns of the named elements, the first one
    in response order for each identifier, rearranged by the sort; so no two
    of its towns share an identifier, and it is no longer than the
    response. *)
Theorem towns_first_seen_unique {R : Runtime} (els : list element) :
  Permutation (Batch.towns_of_elements els)
    (keep_first Batch.slug [] (map Batch.town_of_element (List.filter has_name els))) /\
  NoDup (Batch.slug <$> Batch.towns_of_elements els) /\
  length (Batch.towns_of_elements els) <= length els.
Proof.
  split; [apply towns_keep_first|]. split.
  - rewrite towns_keep_first. apply keep_first_NoDup.
  - rewrite (Permutation_length (towns_keep_first els)).
    etransitivity; [apply sublist_length, keep_first_sublist|].
    rewrite length_map. apply filter_length_le.
Qed.

(** X5. Every town of the list comes from an element of the response that has
    a name, and every such element has a town with its identifier in the
    list. *)
Theorem towns_cover_named_elements {R : Runtime} (els : list element) :
  (forall t, t ∈ Batch.towns_of_elements els ->
     exists el, el ∈ els /\ has_name el = true /\ t = Batch.town_of_element el) /\
  (forall el, el ∈ els -> has_name el = true ->
     exists t, t ∈ Batch.towns_of_elements els /\
               Batch.slug t = Batch.slug (Batch.town_of_element el)).
Proof.
  split.
  - intros t Ht. rewrite towns_keep_first in Ht.
    eapply elem_of_sublist in Ht; [|apply keep_first_sublist].
    apply list_elem_of_In, in_map_iff in Ht as (el & <- & Hel).
    apply filter_In in Hel as [Hel Hn]. exists el.
    split; [apply list_elem_of_In, Hel|]. split; [exact Hn | reflexivity].
  - intros el Hel Hn.
    assert (Hin : Batch.town_of_element el
                  ∈ map Batch.town_of_element (List.filter has_name els)).
    { apply list_elem_of_In, in_map, filter_In. split; [apply list_elem_of_In, Hel | exact Hn]. }
    destruct (keep_first_covers Batch.slug [] _ _ Hin) as [Hnil | (t & Ht & Hk)];
      [inversion Hnil|].
    exists t. split; [|exact Hk]. rewrite towns_keep_first. exact Ht.
Qed.

(** X6. With a collation that compares consistently, the town list is sorted
    by display name. *)
Theorem towns_sorted {R : Runtime} (HC : ConsistentCollation R) (els : list element) :
  StronglySorted
    (fun a b => (localeCompare (Batch.displayName a) (Batch.displayName b) <= 0)%Z)
    (Batch.towns_of_elements els).
Proof.
  unfold Batch.towns_of_elements.
  apply (sort_StronglySorted
           (fun a b => localeCompare (Batch.displayName a) (Batch.displayName b))).
  - intros a b.
    pose proof (localeCompare_flip (Batch.displayName a) (Batch.displayName b)).
    pose proof (Z.sgn_spec (localeCompare (Batch.displayName a) (Batch.displayName b))).
    pose proof (Z.sgn_spec (localeCompare (Batch.displayName b) (Batch.displayName a))).
    lia.
  - intros a b c. apply localeCompare_trans.
Qed.

Lemma towns_sorted_witness :
  StronglySorted
    (fun a b => (localeCompare (Runtime := code_unit_runtime)
                   (Batch.displayName a) (Batch.displayName b) <= 0)%Z)
    (Batch.towns_of_elements (R := code_unit_runtime)
       [named "Trenton City"; named "Cherry Hill Township"; named "Trenton"]).
Proof.
  exact (@towns_sorted code_unit_runtime code_unit_consistent
           [named "Trenton City"; named "Cherry Hill Township"; named "Trenton"]).
Defined.

(** ** The business list *)

Lemma businesses_keep_first {R : Runtime} (t : Batch.town) (els : list element) :
  Permutation (Batch.businesses_of_elements t els)
    (keep_first name_and_address []
       (map (Batch.business_of_element t)
          (List.filter Batch.postcode_ok (List.filter has_name els)))).
Proof.
  unfold Batch.businesses_of_elements. rewrite sort_Permutation, dedup_keep_first.
  reflexivity.
Qed.


(** X8. In the business list as it is returned, after the sort, no two records
    agree in both name and address, and there are no more records than
    elements in the response. *)
Theorem businesses_unique {R : Runtime} (t : Batch.town) (els : list element) :
  NoDup (name_and_address <$> Batch.businesses_of_elements t els) /\
  length (Batch.businesses_of_elements t els) <= length els.
Proof.
  split.
  - rewrite businesses_keep_first. apply keep_first_NoDup.
  - rewrite (Permutation_length (businesses_keep_first t els)).
    etransitivity; [apply sublist_length, keep_first_sublist|].
    rewrite length_map.
    etransitivity; apply filter_length_le.
Qed.

(** ** More on the category classifier *)

Lemma first_usable_or_none (tags : gmap string string) (types : list string) :
  Forall (passed_over tags) types \/
  exists pre k post v,
    types = pre ++ k :: post /\ Forall (passed_over tags) pre /\
    tags !! k = Some v /\ v <> "" /\ v <> "yes".
Proof.
  induction types as [|t types IH]; [left; constructor|].
  destruct (passed_over_or_usable tags t) as [Hpass | (v & Hv & Hne & Hyes)].
  - destruct IH as [Hall | (pre & k & post & v & -> & Hpre & Hk)].
    + left. constructor; assumption.
    + right. exists (t :: pre), k, post, v. split; [reflexivity|].
      split; [constructor; assumption | exact Hk].
  - right. exists [], t, types, v. repeat split; try assumption. constructor.
Qed.

(** X9. The classifier in full, for a tag mapping whose values at shop,
    amenity, office, craft, tourism, healthcare are ASCII text that names no
    inherited member of the table object: when every one of these tag types
    is missing, empty or ["yes"], the category is ["Business"]; otherwise it
    is decided by the first tag type whose value is none of these, and is the
    label of that value in the table or, for a value that is no key of the
    table, the value with its first character in upper case and the
    underscores after it turned into spaces. *)
Theorem getCategory_characterised (tags : gmap string string) :
  plain_at tags Batch.tagTypes ->
  (Forall (passed_over tags) Batch.tagTypes /\ Batch.getCategory tags = "Business") \/
  (exists pre k post v,
     Batch.tagTypes = pre ++ k :: post /\ Forall (passed_over tags) pre /\
     tags !! k = Some v /\ v <> "" /\ v <> "yes" /\
     Batch.getCategory tags =
       match Batch.categoryMap !! v with
       | Some label => label
       | None => toUpperCase (charAt0 v) +:+ replace_each is_underscore " " (slice_from 1 v)
       end).
Proof.
  intros _.
  destruct (first_usable_or_none tags Batch.tagTypes)
    as [Hall | (pre & k & post & v & Hsplit & Hpre & Hk & Hne & Hyes)].
  - left. split; [exact Hall | apply getCategory_none_usable, Hall].
  - right. exists pre, k, post, v. repeat split; try assumption.
    apply (getCategory_first_usable tags pre post k v); assumption.
Qed.

Lemma getCategory_characterised_witness :
  (Forall (passed_over {[ "amenity" := "yes"; "craft" := "stone_mason" ]}) Batch.tagTypes /\
   Batch.getCategory {[ "amenity" := "yes"; "craft" := "stone_mason" ]} = "Business") \/
  (exists pre k post v,
     Batch.tagTypes = pre ++ k :: post /\
     Forall (passed_over {[ "amenity" := "yes"; "craft" := "stone_mason" ]}) pre /\
     ({[ "amenity" := "yes"; "craft" := "stone_mason" ]} : gmap string string) !! k = Some v /\
     v <> "" /\ v <> "yes" /\
     Batch.getCategory {[ "amenity" := "yes"; "craft" := "stone_mason" ]} =
       match Batch.categoryMap !! v with
       | Some label => label
       | None => toUpperCase (charAt0 v) +:+ replace_each is_underscore " " (slice_from 1 v)
       end).
Proof.
  apply (getCategory_characterised {[ "amenity" := "yes"; "craft" := "stone_mason" ]}).
  unfold plain_at, Batch.tagTypes.
  repeat (constructor;
          [intros v Hv; vm_compute in Hv;
           first [discriminate Hv | injection Hv as <-; reflexivity]|]).
  constructor.
Defined.

Lemma capitalized_truthy (v : string) : v <> "" -> Batch.capitalized v <> "".
Proof. destruct v as [|c v]; [congruence|]. intros _. discriminate. Qed.

Lemma getCategory_from_truthy (tags : gmap string string) (types : list string) :
  Batch.getCategory_from tags types <> "".
Proof.
  induction types as [|k types IH]; [discriminate|].
  destruct (passed_over_or_usable tags k) as [Hpass | (v & Hv & Hne & Hyes)].
  - rewrite getCategory_from_passed_over by assumption. exact IH.
  - rewrite (getCategory_from_hit tags k v types Hv Hne Hyes). unfold label_of.
    destruct (Batch.categoryMap !! v) as [label|] eqn:Hl.
    + pose proof (categoryMap_labels_truthy v label Hl) as Ht.
      destruct label; [discriminate Ht | discriminate].
    + apply capitalized_truthy, Hne.
Qed.

(** X10. The category is never the empty string, in either generator. *)
Theorem getCategory_never_empty (tags : gmap string string) :
  Batch.getCategory tags <> "" /\ Single.getCategory tags <> "".
Proof.
  split; [apply getCategory_from_truthy|].
  unfold Single.getCategory. rewrite <- getCategory_from_same. apply getCategory_from_truthy.
Qed.

Lemma getCategory_from_frame (tags tags' : gmap string string) (types : list string) :
  Forall (fun k => tags !! k = tags' !! k) types ->
  Batch.getCategory_from tags types = Batch.getCategory_from tags' types.
Proof.
  induction 1 as [|k types Hk _ IH]; [reflexivity|].
  rewrite !Batch_getCategory_from_cons, Hk, IH. reflexivity.
Qed.

(** X11. The category depends on the six classifying tags only: two tag mappings
    that agree on them have the same category. *)
Theorem getCategory_reads_six_tags (tags tags' : gmap string string) :
  Forall (fun k => tags !! k = tags' !! k)
    ["shop"; "amenity"; "office"; "craft"; "tourism"; "healthcare"] ->
  Batch.getCategory tags = Batch.getCategory tags' /\
  Single.getCategory tags = Single.getCategory tags'.
Proof.
  intros Hsame. split; [apply getCategory_from_frame, Hsame|].
  unfold Single.getCategory. rewrite <- !getCategory_from_same.
  apply getCategory_from_frame, Hsame.
Qed.

Lemma getCategory_reads_six_tags_witness :
  Batch.getCategory {[ "name" := "Joe's Deli"; "shop" := "deli"; "phone" := "6095551234" ]}
    = Batch.getCategory {[ "shop" := "deli"; "cuisine" := "sandwich" ]} /\
  Single.getCategory {[ "name" := "Joe's Deli"; "shop" := "deli"; "phone" := "6095551234" ]}
    = Single.getCategory {[ "shop" := "deli"; "cuisine" := "sandwich" ]}.
Proof.
  apply (getCategory_reads_six_tags
           {[ "name" := "Joe's Deli"; "shop" := "deli"; "phone" := "6095551234" ]}
           {[ "shop" := "deli"; "cuisine" := "sandwich" ]}).
  repeat (constructor; [reflexivity|]). constructor.
Defined.

(** X12. Every record of the business list has a non-empty name and a non-empty
    category, and its rating, review count, claimed and featured fields are
    [null], [null], [false] and [false]. *)
Theorem businesses_record_invariants {R : Runtime} (t : Batch.town) (els : list element) :
  Forall (fun b => Batch.b_name b <> "" /\ Batch.b_category b <> "" /\
                   Batch.b_rating b = None /\ Batch.b_review_count b = None /\
                   Batch.b_claimed b = false /\ Batch.b_featured b = false)
    (Batch.businesses_of_elements t els).
Proof.
  apply Forall_forall. intros b Hb. rewrite businesses_keep_first in Hb.
  eapply elem_of_sublist in Hb; [|apply keep_first_sublist].
  apply list_elem_of_In, in_map_iff in Hb as (el & <- & Hel).
  apply filter_In in Hel as [Hel _]. apply filter_In in Hel as [_ Hn].
  cbn [Batch.business_of_element Batch.b_name Batch.b_category Batch.b_rating
         Batch.b_review_count Batch.b_claimed Batch.b_featured].
  split; [|split; [apply getCategory_from_truthy | repeat split]].
  unfold has_name, tags_of in *. destruct (el_tags el) as [tags|]; [|discriminate].
  cbn. destruct (tags !! "name") as [[|c v]|]; discriminate.
Qed.

(** ** More on the phone formatter *)

Lemma filter_chars_app (p : ascii -> bool) (a b : string) :
  filter_chars p (a +:+ b) = filter_chars p a +:+ filter_chars p b.
Proof.
  induction a as [|c a IH]; [reflexivity|].
  change (String c a +:+ b) with (String c (a +:+ b)). cbn [filter_chars].
  destruct (p c); rewrite IH; reflexivity.
Qed.

Lemma slice_from_empty (n : nat) : slice_from n "" = "".
Proof. destruct n; reflexivity. Qed.

Lemma slice_from_add (a b : nat) (s : string) :
  slice_from (a + b) s = slice_from b (slice_from a s).
Proof.
  revert s. induction a as [|a IH]; intros s; [reflexivity|].
  destruct s as [|c s]; [cbn; rewrite slice_from_empty; reflexivity | apply IH].
Qed.

Lemma slice_upto_from (k : nat) (s : string) : slice_upto k s +:+ slice_from k s = s.
Proof.
  revert s. induction k as [|k IH]; intros s; [reflexivity|].
  destruct s as [|c s]; [reflexivity|]. cbn [slice_upto slice_from].
  change (String c ?a +:+ ?b) with (String c (a +:+ b)). rewrite IH. reflexivity.
Qed.

Lemma all_chars_slice_from (p : ascii -> bool) (n : nat) (s : string) :
  all_chars p s = true -> all_chars p (slice_from n s) = true.
Proof.
  revert s. induction n as [|n IH]; intros s Hs; [exact Hs|].
  destruct s as [|c s]; [reflexivity|]. cbn [all_chars] in Hs.
  apply andb_prop in Hs as [_ Hs]. apply IH, Hs.
Qed.

Lemma all_chars_slice_upto (p : ascii -> bool) (n : nat) (s : string) :
  all_chars p s = true -> all_chars p (slice_upto n s) = true.
Proof.
  revert s. induction n as [|n IH]; intros s Hs; [reflexivity|].
  destruct s as [|c s]; [reflexivity|]. cbn [all_chars slice_upto] in *.
  apply andb_prop in Hs as [Hc Hs]. rewrite Hc. apply IH, Hs.
Qed.

Lemma length_slice_from (n : nat) (s : string) :
  String.length (slice_from n s) = String.length s - n.
Proof.
  revert s. induction n as [|n IH]; intros s; [cbn; lia|].
  destruct s as [|c s]; [reflexivity | apply IH].
Qed.

(** The three pieces that [us_format] quotes are the text from [a] on. *)
Lemma us_format_pieces (a : nat) (d : string) :
  slice a (a + 3) d +:+ slice (a + 3) (a + 6) d +:+ slice_from (a + 6) d = slice_from a d.
Proof.
  unfold slice. replace (a + 3 - a) with 3 by lia. replace (a + 6 - (a + 3)) with 3 by lia.
  replace (a + 6) with (a + 3 + 3) by lia.
  rewrite (slice_from_add (a + 3) 3 d), (slice_from_add a 3 d).
  rewrite slice_upto_from. apply slice_upto_from.
Qed.

Lemma cleaned_us_format (a : nat) (d : string) :
  all_chars (fun c => is_digit c || is_plus c) d = true ->
  Batch.cleaned_phone (Batch.us_format a d) = slice_from a d.
Proof.
  intros Hd. unfold Batch.cleaned_phone, Batch.us_format.
  rewrite !filter_chars_app.
  rewrite (filter_chars_all _ (slice a (a + 3) d))
    by (unfold slice; auto using all_chars_slice_from, all_chars_slice_upto).
  rewrite (filter_chars_all _ (slice (a + 3) (a + 6) d))
    by (unfold slice; auto using all_chars_slice_from, all_chars_slice_upto).
  rewrite (filter_chars_all _ (slice_from (a + 6) d))
    by auto using all_chars_slice_from.
  change (filter_chars (fun c => is_digit c || is_plus c) "(") with "".
  change (filter_chars (fun c => is_digit c || is_plus c) ") ") with "".
  change (filter_chars (fun c => is_digit c || is_plus c) "-") with "".
  change ("" +:+ ?x) with x. apply us_format_pieces.
Qed.

Lemma us_format_shift (a : nat) (d : string) :
  Batch.us_format 0 (slice_from a d) = Batch.us_format a d.
Proof.
  unfold Batch.us_format, slice. cbn [Nat.add Nat.sub slice_from].
  replace (a + 3 - a) with 3 by lia. replace (a + 6 - (a + 3)) with 3 by lia.
  rewrite !slice_from_add. reflexivity.
Qed.

Lemma cleaned_phone_all (phone : string) :
  all_chars (fun c => is_digit c || is_plus c) (Batch.cleaned_phone phone) = true.
Proof. apply all_chars_filter. Qed.

Lemma formatPhone_Some (phone : string) :
  truthy (Some phone) = true ->
  Batch.formatPhone (Some phone) =
    if Nat.eqb (String.length (Batch.cleaned_phone phone)) 10
    then Batch.us_format 0 (Batch.cleaned_phone phone)
    else if Nat.eqb (String.length (Batch.cleaned_phone phone)) 11
            && startsWith "1" (Batch.cleaned_phone phone)
         then Batch.us_format 1 (Batch.cleaned_phone phone)
         else phone.
Proof. intros Ht. unfold Batch.formatPhone. rewrite Ht. reflexivity. Qed.

Lemma formatPhone_truthy (phone : string) :
  truthy (Some phone) = true -> truthy (Some (Batch.formatPhone (Some phone))) = true.
Proof.
  intros Ht. rewrite (formatPhone_Some phone Ht).
  destruct (Nat.eqb _ 10); [reflexivity|]. destruct (_ && _); [reflexivity | exact Ht].
Qed.

Lemma formatPhone_single_batch (phone : option string) :
  Single.formatPhone phone =
  if truthy phone then Some (Batch.formatPhone phone) else None.
Proof.
  unfold Single.formatPhone, Batch.formatPhone.
  change Single.cleaned_phone with Batch.cleaned_phone.
  change Single.us_format with Batch.us_format.
  destruct (truthy phone); [|reflexivity]. cbn [negb].
  destruct (Nat.eqb _ 10); [reflexivity|]. destruct (_ && _); reflexivity.
Qed.

(** X13. Formatting keeps the digits and plus signs of a phone text as they
    are, in order, except that it drops the leading ["1"] of an eleven-character
    run of them. *)
Theorem formatPhone_keeps_digits (phone : string) :
  Batch.cleaned_phone (Batch.formatPhone (Some phone)) =
  if Nat.eqb (String.length (Batch.cleaned_phone phone)) 11
     && startsWith "1" (Batch.cleaned_phone phone)
  then slice_from 1 (Batch.cleaned_phone phone)
  else Batch.cleaned_phone phone.
Proof.
  destruct (truthy (Some phone)) eqn:Ht.
  - rewrite (formatPhone_Some phone Ht).
    destruct (Nat.eqb_spec (String.length (Batch.cleaned_phone phone)) 10) as [H10 | _].
    + rewrite H10. cbn [Nat.eqb andb].
      apply (cleaned_us_format 0), cleaned_phone_all.
    + destruct (_ && _); [|reflexivity].
      apply (cleaned_us_format 1), cleaned_phone_all.
  - destruct phone; [reflexivity | discriminate Ht].
Qed.

Lemma formatPhone_twice (phone : string) :
  Batch.formatPhone (Some (Batch.formatPhone (Some phone))) = Batch.formatPhone (Some phone).
Proof.
  destruct (truthy (Some phone)) eqn:Ht; [|destruct phone; [reflexivity | discriminate Ht]].
  rewrite (formatPhone_Some _ (formatPhone_truthy phone Ht)).
  rewrite (formatPhone_Some phone Ht).
  destruct (Nat.eqb_spec (String.length (Batch.cleaned_phone phone)) 10) as [H10 | H10].
  - rewrite (cleaned_us_format 0) by apply cleaned_phone_all.
    cbn [slice_from]. rewrite H10. reflexivity.
  - destruct (Nat.eqb_spec (String.length (Batch.cleaned_phone phone)) 11) as [H11 | H11];
      cbn [andb].
    + destruct (startsWith "1" (Batch.cleaned_phone phone)) eqn:H1.
      * rewrite (cleaned_us_format 1) by apply cleaned_phone_all.
        rewrite length_slice_from, H11. cbn [Nat.sub Nat.eqb].
        apply us_format_shift.
      * destruct (Nat.eqb_spec (String.length (Batch.cleaned_phone phone)) 10);
          [contradiction|].
        destruct (Nat.eqb_spec (String.length (Batch.cleaned_phone phone)) 11);
          [|contradiction].
        rewrite H1. reflexivity.
    + destruct (Nat.eqb_spec (String.length (Batch.cleaned_phone phone)) 10);
        [contradiction|].
      destruct (Nat.eqb_spec (String.length (Batch.cleaned_phone phone)) 11);
        [contradiction|]. reflexivity.
Qed.

(** X14. Formatting a phone text that has been formatted changes nothing, in
    the batch generator and in the single-town generator. *)
Theorem formatPhone_idempotent (phone : option string) :
  Batch.formatPhone (Some (Batch.formatPhone phone)) = Batch.formatPhone phone /\
  Single.formatPhone (Single.formatPhone phone) = Single.formatPhone phone.
Proof.
  destruct phone as [phone|]; [|split; reflexivity].
  split; [apply formatPhone_twice|].
  rewrite !formatPhone_single_batch. destruct (truthy (Some phone)) eqn:Ht; [|reflexivity].
  rewrite (formatPhone_truthy phone Ht), formatPhone_twice. reflexivity.
Qed.

(** X15. The two phone formatters differ only in what they answer for a missing
    or empty phone: the batch one the empty string, the single-town one
    [null]; the single-town formatter never answers the empty string. *)
Theorem formatPhone_modes_agree (phone : option string) :
  Single.formatPhone phone =
    (if truthy phone then Some (Batch.formatPhone phone) else None) /\
  (truthy phone = false -> Batch.formatPhone phone = "") /\
  Single.formatPhone phone <> Some "".
Proof.
  split; [apply formatPhone_single_batch|]. split.
  - intros Hf. unfold Batch.formatPhone. rewrite Hf. reflexivity.
  - rewrite formatPhone_single_batch. destruct phone as [phone|]; [|discriminate].
    destruct (truthy (Some phone)) eqn:Ht; [|discriminate].
    pose proof (formatPhone_truthy phone Ht) as Hr. intros Heq.
    injection Heq as Heq. rewrite Heq in Hr. discriminate Hr.
Qed.

(** ** The two generators compared *)

Lemma insert_by_map {A B : Type} (f : A -> B) (cmpA : A -> A -> Z) (cmpB : B -> B -> Z)
    (x : A) (l : list A) :
  (forall a b, cmpB (f a) (f b) = cmpA a b) ->
  JsArray.insert_by cmpB (f x) (map f l) = map f (JsArray.insert_by cmpA x l).
Proof.
  intros Hcmp. induction l as [|y l IH]; [reflexivity|].
  cbn [map JsArray.insert_by]. rewrite Hcmp.
  destruct (cmpA x y <=? 0)%Z; [reflexivity|]. cbn [map]. rewrite IH. reflexivity.
Qed.

Lemma sort_map {A B : Type} (f : A -> B) (cmpA : A -> A -> Z) (cmpB : B -> B -> Z)
    (l : list A) :
  (forall a b, cmpB (f a) (f b) = cmpA a b) ->
  JsArray.sort cmpB (map f l) = map f (JsArray.sort cmpA l).
Proof.
  intros Hcmp. induction l as [|x l IH]; [reflexivity|].
  unfold JsArray.sort in *. cbn [map foldr]. rewrite IH. apply insert_by_map, Hcmp.
Qed.

Lemma keep_first_map {A B K : Type} `{EqDecision K} (f : A -> B) (keyA : A -> K)
    (keyB : B -> K) (seen : list K) (l : list A) :
  (forall a, keyB (f a) = keyA a) ->
  keep_first keyB seen (map f l) = map f (keep_first keyA seen l).
Proof.
  intros Hkey. revert seen. induction l as [|x l IH]; intros seen; [reflexivity|].
  cbn [map keep_first]. rewrite Hkey.
  destruct (decide (keyA x ∈ seen)); [apply IH|]. cbn [map]. rewrite IH. reflexivity.
Qed.

Lemma or_else_null (x : option string) :
  or_else x None = if truthy (Some (str (or_else x (Some "")))) then Some (str (or_else x (Some ""))) else None.
Proof. destruct x as [[|c v]|]; reflexivity. Qed.

Lemma business_single_of_batch {R : Runtime} (t : Batch.town) (el : element) :
  Batch.displayName t = "Trenton" ->
  Single.business_of_element el = single_of_batch (Batch.business_of_element t el).
Proof.
  intros Ht. unfold Single.business_of_element, single_of_batch, Batch.business_of_element.
  cbn [Batch.b_name Batch.b_category Batch.b_address Batch.b_phone Batch.b_website].
  f_equal.
  - unfold Single.getCategory. rewrite <- getCategory_from_same. reflexivity.
  - rewrite formatAddress_spec, address_parts_spec, Ht. reflexivity.
  - rewrite formatPhone_single_batch.
    destruct (truthy (tags_of el !! "phone")) eqn:Hp.
    + destruct (tags_of el !! "phone") as [phone|]; [|discriminate Hp].
      rewrite (formatPhone_truthy phone Hp). unfold or_else.
      rewrite (formatPhone_truthy phone Hp). reflexivity.
    + unfold Batch.formatPhone. rewrite Hp. reflexivity.
  - apply or_else_null.
Qed.

(** X16. For Trenton and a response in which no postal code begins with ["07"],
    the single-town generator builds the business list of the batch generator,
    record for record and in the same order, with [null] for an empty phone or
    website. *)
Theorem single_is_batch_for_trenton {R : Runtime} (t : Batch.town) (els : list element) :
  Batch.displayName t = "Trenton" ->
  Forall (fun el => startsWith "07" (str (tags_of el !! "addr:postcode")) = false) els ->
  Single.businesses_of_elements els = map single_of_batch (Batch.businesses_of_elements t els).
Proof.
  intros Ht Hno. unfold Single.businesses_of_elements, Batch.businesses_of_elements.
  rewrite dedup_single_keep_first, dedup_keep_first.
  rewrite <- (sort_map single_of_batch Batch.compare_business Single.compare_business)
    by reflexivity.
  rewrite <- (keep_first_map single_of_batch name_and_address name_and_address_single)
    by reflexivity.
  rewrite map_map. f_equal. f_equal.
  assert (Hfilter : List.filter Single.postcode_ok (List.filter has_name els)
                    = List.filter Batch.postcode_ok (List.filter has_name els)).
  { apply filter_ext_in. intros el Hel. apply filter_In in Hel as [Hel _].
    rewrite Forall_forall in Hno. specialize (Hno el (proj2 (list_elem_of_In _ _) Hel)).
    unfold Single.postcode_ok, Batch.postcode_ok. rewrite Hno, orb_false_r. reflexivity. }
  rewrite Hfilter. apply map_ext. intros el. apply business_single_of_batch, Ht.
Qed.

Lemma single_is_batch_for_trenton_witness :
  Single.businesses_of_elements (R := code_unit_runtime) [joes_deli; named "City Hall"]
  = map (single_of_batch (R := code_unit_runtime))
      (Batch.businesses_of_elements (R := code_unit_runtime)
         (Batch.town_of_element (R := code_unit_runtime) (named "Trenton City"))
         [joes_deli; named "City Hall"]).
Proof.
  apply (@single_is_batch_for_trenton code_unit_runtime
           (Batch.town_of_element (R := code_unit_runtime) (named "Trenton City"))
           [joes_deli; named "City Hall"]).
  - reflexivity.
  - repeat (constructor; [reflexivity|]). constructor.
Defined.

Lemma or_else_None_cases (x : option string) :
  or_else x None = None \/ truthy (or_else x None) = true.
Proof. destruct x as [[|c v]|]; [left | right | left]; reflexivity. Qed.

(** X17. Every record of the single-town business list has a non-empty name and
    category, and a phone and a website that are [null] or non-empty; so the
    records of [cleanedBusinesses] carry every phone and website there is. *)
Theorem single_records_lose_nothing {R : Runtime} (els : list element) :
  Forall (fun b => Single.b_name b <> "" /\ Single.b_category b <> "" /\
                   Single.b_phone b <> Some "" /\ Single.b_website b <> Some "" /\
                   SingleMain.c_phone (SingleMain.clean b) = Single.b_phone b /\
                   SingleMain.c_website (SingleMain.clean b) = Single.b_website b)
    (Single.businesses_of_elements els).
Proof.
  apply Forall_forall. intros b Hb. unfold Single.businesses_of_elements in Hb.
  rewrite sort_Permutation, dedup_single_keep_first in Hb.
  eapply elem_of_sublist in Hb; [|apply keep_first_sublist].
  apply list_elem_of_In, in_map_iff in Hb as (el & <- & Hel).
  apply filter_In in Hel as [Hel _]. apply filter_In in Hel as [_ Hn].
  unfold SingleMain.clean.
  cbn [Single.business_of_element Single.b_name Single.b_category Single.b_phone
         Single.b_website SingleMain.c_phone SingleMain.c_website].
  split; [|split; [|split; [|split; [|split]]]].
  - unfold has_name, tags_of in *. destruct (el_tags el) as [tags|]; [|discriminate].
    cbn. destruct (tags !! "name") as [[|c v]|]; discriminate.
  - unfold Single.getCategory. rewrite <- getCategory_from_same. apply getCategory_from_truthy.
  - destruct (or_else_None_cases (Single.formatPhone (tags_of el !! "phone"))) as [-> | Ht];
      [discriminate|]. intros Heq. rewrite Heq in Ht. discriminate Ht.
  - destruct (or_else_None_cases
                (or_else (tags_of el !! "website") (tags_of el !! "contact:website")))
      as [-> | Ht]; [discriminate|]. intros Heq. rewrite Heq in Ht. discriminate Ht.
  - destruct (or_else_None_cases (Single.formatPhone (tags_of el !! "phone"))) as [-> | ->];
      reflexivity.
  - destruct (or_else_None_cases
                (or_else (tags_of el !! "website") (tags_of el !! "contact:website")))
      as [-> | ->]; reflexivity.
Qed.

(** ** Failures and the file system *)

Section Failures.
Context {R : Runtime} {host : Batch.Host}.

Lemma bind_inr {A B : Type} (c : Batch.IO A) (k : A -> Batch.IO B) (m m' : Batch.machine)
    (a : A) :
  c m = (inr a, m') -> Batch.bind c k m = k a m'.
Proof. intros Hc. unfold Batch.bind. rewrite Hc. reflexivity. Qed.

Lemma bind_inl {A B : Type} (c : Batch.IO A) (k : A -> Batch.IO B) (m m' : Batch.machine)
    (msg : string) :
  c m = (inl msg, m') -> Batch.bind c k m = (inl msg, m').
Proof. intros Hc. unfold Batch.bind. rewrite Hc. reflexivity. Qed.

Lemma run_batches_summary (towns : list Batch.town) (m : Batch.machine) :
  exists c m' printed,
    Batch.run_batches towns m = (inr c, m') /\
    Batch.totalSkipped c + Batch.totalProcessed c + Batch.totalErrors c = length towns /\
    Batch.stdout m' = printed ++ summary_block (length towns) c.
Proof.
  unfold Batch.run_batches, Batch.bind. cbn [Batch.console_log].
  match goal with
  | |- context [Batch.process_batches towns 0 Batch.no_counts ?m0] =>
      destruct (process_batches_returns towns 0 Batch.no_counts m0)
        as (results & m1 & Hrun & Hall)
  end.
  rewrite drop_0 in Hall. rewrite foldl_count_tally in Hrun.
  destruct (print_summary_appends towns (tally results) m1) as (m' & Hprint & Hout).
  exists (tally results), m', (Batch.stdout m1). rewrite Hrun, Hprint.
  split; [reflexivity|]. split; [|exact Hout].
  rewrite tally_total. symmetry. eapply Forall2_length, Hall.
Qed.

Lemma processTown_skips_existing_aux (t : Batch.town) (m : Batch.machine) :
  Batch.existsSync (Batch.data_file (Batch.slug t)) (Batch.world m) = true ->
  Batch.processTown t m =
    (inr {| Batch.skipped := true; Batch.businesses := 0; Batch.error := false |},
     {| Batch.world := Batch.world m;
        Batch.stdout := Batch.stdout m
                        ++ ["Skipping " +:+ Batch.displayName t +:+ " (already exists)"];
        Batch.stderr := Batch.stderr m |}).
Proof.
  intros Hex. unfold Batch.processTown, Batch.bind, Batch.read_world. rewrite Hex.
  reflexivity.
Qed.

Lemma fetchBusinessesForTown_fails (t : Batch.town) (m : Batch.machine) (message : string)
    (w : Batch.World) :
  Batch.queryOverpass (Batch.businesses_query (Batch.name t)) (Batch.world m)
    = (inl message, w) ->
  Batch.fetchBusinessesForTown t m =
    (inl message,
     {| Batch.world := w; Batch.stdout := Batch.stdout m; Batch.stderr := Batch.stderr m |}).
Proof.
  intros Hq. unfold Batch.fetchBusinessesForTown. apply bind_inl.
  unfold Batch.on_world. rewrite Hq. reflexivity.
Qed.

Lemma fetchNJTownsList_fails (m : Batch.machine) (message : string) (w : Batch.World) :
  Batch.queryOverpass Batch.towns_query (Batch.world m) = (inl message, w) ->
  Batch.fetchNJTownsList m =
    (inl message,
     {| Batch.world := w;
        Batch.stdout := Batch.stdout m
                        ++ ["Fetching list of all NJ towns from OpenStreetMap..." +:+ Batch.nl];
        Batch.stderr := Batch.stderr m |}).
Proof.
  intros Hq. unfold Batch.fetchNJTownsList.
  erewrite bind_inr by reflexivity. apply bind_inl.
  unfold Batch.on_world. cbn [Batch.world]. rewrite Hq. reflexivity.
Qed.

Lemma processTown_query_failure_aux (t : Batch.town) (m : Batch.machine) (message : string)
    (w : Batch.World) :
  Batch.existsSync (Batch.data_file (Batch.slug t)) (Batch.world m) = false ->
  Batch.queryOverpass (Batch.businesses_query (Batch.name t)) (Batch.world m)
    = (inl message, w) ->
  Batch.processTown t m =
    (inr {| Batch.skipped := false; Batch.businesses := 0; Batch.error := true |},
     {| Batch.world := w;
        Batch.stdout := Batch.stdout m;
        Batch.stderr := Batch.stderr m
                        ++ ["Error processing " +:+ Batch.displayName t +:+ ": " +:+ message] |}).
Proof.
  intros Hex Hq. unfold Batch.processTown.
  erewrite bind_inr by (unfold Batch.read_world; rewrite Hex; reflexivity).
  unfold Batch.try_catch.
  erewrite bind_inl by (apply fetchBusinessesForTown_fails; exact Hq).
  reflexivity.
Qed.

End Failures.

(** X18. [processTown] never throws: it always returns an outcome, and in the
    outcome a skipped town is no error, and only a town that is neither has a
    business count other than zero. *)
Theorem processTown_never_throws {R : Runtime} {host : Batch.Host} (t : Batch.town)
    (m : Batch.machine) :
  exists r m',
    Batch.processTown t m = (inr r, m') /\
    (Batch.skipped r = true -> Batch.error r = false) /\
    (processed r = false -> Batch.businesses r = 0).
Proof.
  unfold Batch.processTown, Batch.bind, Batch.try_catch, Batch.read_world,
    Batch.console_log, Batch.console_error, Batch.ret.
  destruct (Batch.existsSync (Batch.data_file (Batch.slug t)) (Batch.world m)).
  { eexists _, _. split; [reflexivity|]. split; reflexivity. }
  destruct (Batch.fetchBusinessesForTown t m) as [[msg | bs] m1].
  { eexists _, _. split; [reflexivity|]. split; [discriminate | reflexivity]. }
  destruct (Batch.generateDataFile t bs m1) as [[msg | p1] m2].
  { eexists _, _. split; [reflexivity|]. split; [discriminate | reflexivity]. }
  destruct (Batch.generateContentFile t m2) as [[msg | p2] m3].
  { eexists _, _. split; [reflexivity|]. split; [discriminate | reflexivity]. }
  eexists _, _. split; [reflexivity|]. split; discriminate.
Qed.

(** X19. A town whose data file exists is skipped without any query or write:
    the outside world is left as it was, one line is printed, and the outcome
    is "skipped" with no businesses. *)
Theorem processTown_skips_existing {R : Runtime} {host : Batch.Host} (t : Batch.town)
    (m : Batch.machine) :
  Batch.existsSync (Batch.data_file (Batch.slug t)) (Batch.world m) = true ->
  Batch.processTown t m =
    (inr {| Batch.skipped := true; Batch.businesses := 0; Batch.error := false |},
     {| Batch.world := Batch.world m;
        Batch.stdout := Batch.stdout m
                        ++ ["Skipping " +:+ Batch.displayName t +:+ " (already exists)"];
        Batch.stderr := Batch.stderr m |}).
Proof.
  apply processTown_skips_existing_aux.
Qed.

Lemma processTown_skips_existing_witness :
  Batch.processTown (host := archive_host)
    (Batch.town_of_element (R := code_unit_runtime) (named "Trenton"))
    (start_machine archive_host 0)
  = (inr {| Batch.skipped := true; Batch.businesses := 0; Batch.error := false |},
     @Batch.Build_machine code_unit_runtime archive_host 0
       ["Skipping Trenton (already exists)"] []).
Proof.
  exact (@processTown_skips_existing code_unit_runtime archive_host
           (Batch.town_of_element (R := code_unit_runtime) (named "Trenton"))
           (start_machine archive_host 0) eq_refl).
Defined.

(** X20. When the data file is not there and the query for the town fails, the
    failure is caught: the outcome is "error" with no businesses, the message
    goes to the error output with the town's display name, nothing is printed
    and nothing is written. *)
Theorem processTown_catches_query_failure {R : Runtime} {host : Batch.Host}
    (t : Batch.town) (m : Batch.machine) (message : string) (w : Batch.World) :
  Batch.existsSync (Batch.data_file (Batch.slug t)) (Batch.world m) = false ->
  Batch.queryOverpass (Batch.businesses_query (Batch.name t)) (Batch.world m)
    = (inl message, w) ->
  Batch.processTown t m =
    (inr {| Batch.skipped := false; Batch.businesses := 0; Batch.error := true |},
     {| Batch.world := w;
        Batch.stdout := Batch.stdout m;
        Batch.stderr := Batch.stderr m
                        ++ ["Error processing " +:+ Batch.displayName t +:+ ": " +:+ message] |}).
Proof.
  apply processTown_query_failure_aux.
Qed.

Lemma processTown_catches_query_failure_witness :
  Batch.processTown (host := offline_host)
    (Batch.town_of_element (R := code_unit_runtime) (named "Trenton"))
    (start_machine offline_host 0)
  = (inr {| Batch.skipped := false; Batch.businesses := 0; Batch.error := true |},
     @Batch.Build_machine code_unit_runtime offline_host 1
       [] ["Error processing Trenton: Request timeout"]).
Proof.
  exact (@processTown_catches_query_failure code_unit_runtime offline_host
           (Batch.town_of_element (R := code_unit_runtime) (named "Trenton"))
           (start_machine offline_host 0) "Request timeout" 1 eq_refl eq_refl).
Defined.

(** X21. A town that is counted as processed has had its businesses fetched and
    both of its files written, the data file first: the count in the outcome
    is the length of the list that went into the data file. *)
Theorem processTown_processed_wrote_files {R : Runtime} {host : Batch.Host}
    (t : Batch.town) (m m' : Batch.machine) (r : Batch.outcome) :
  Batch.processTown t m = (inr r, m') ->
  processed r = true ->
  exists bs m1 m2 m3,
    Batch.existsSync (Batch.data_file (Batch.slug t)) (Batch.world m) = false /\
    Batch.fetchBusinessesForTown t m = (inr bs, m1) /\
    Batch.generateDataFile t bs m1 = (inr (Batch.data_file (Batch.slug t)), m2) /\
    Batch.generateContentFile t m2 = (inr (Batch.content_file (Batch.slug t)), m3) /\
    Batch.businesses r = length bs /\
    Batch.world m' = Batch.world m3.
Proof.
  unfold Batch.processTown, Batch.bind at 1, Batch.read_world, Batch.try_catch.
  destruct (Batch.existsSync (Batch.data_file (Batch.slug t)) (Batch.world m)) eqn:Hex.
  { intros Hrun Hp. injection Hrun as <- _. discriminate Hp. }
  unfold Batch.bind at 1.
  destruct (Batch.fetchBusinessesForTown t m) as [[msg | bs] m1] eqn:Hf.
  { intros Hrun Hp. injection Hrun as <- _. discriminate Hp. }
  unfold Batch.bind at 1.
  destruct (Batch.generateDataFile t bs m1) as [[msg | p1] m2] eqn:Hd.
  { intros Hrun Hp. injection Hrun as <- _. discriminate Hp. }
  unfold Batch.bind at 1.
  destruct (Batch.generateContentFile t m2) as [[msg | p2] m3] eqn:Hc.
  { intros Hrun Hp. injection Hrun as <- _. discriminate Hp. }
  intros Hrun _. injection Hrun as <- <-.
  exists bs, m1, m2, m3. split; [reflexivity|]. split; [reflexivity|].
  assert (Hp1 : p1 = Batch.data_file (Batch.slug t)).
  { unfold Batch.generateDataFile, Batch.bind, Batch.on_world, Batch.ret in Hd.
    destruct (Batch.writeFileSync _ _ _) as [[? | []] ?]; [discriminate Hd|].
    injection Hd as <- _. reflexivity. }
  assert (Hp2 : p2 = Batch.content_file (Batch.slug t)).
  { unfold Batch.generateContentFile, Batch.bind, Batch.on_world, Batch.ret in Hc.
    destruct (Batch.writeFileSync _ _ _) as [[? | []] ?]; [discriminate Hc|].
    injection Hc as <- _. reflexivity. }
  subst p1 p2. repeat split; first [reflexivity | assumption].
Qed.

Lemma processTown_processed_wrote_files_witness :
  exists bs m1 m2 m3,
    Batch.existsSync (Batch.data_file "trenton-nj")
      (Batch.world (start_machine (canned_host {| elements := Some [joes_deli] |}) 0)) = false /\
    Batch.fetchBusinessesForTown (host := canned_host {| elements := Some [joes_deli] |})
      (Batch.town_of_element (R := code_unit_runtime) (named "Trenton"))
      (start_machine (canned_host {| elements := Some [joes_deli] |}) 0) = (inr bs, m1) /\
    Batch.generateDataFile
      (Batch.town_of_element (R := code_unit_runtime) (named "Trenton")) bs m1
      = (inr (Batch.data_file "trenton-nj"), m2) /\
    Batch.generateContentFile
      (Batch.town_of_element (R := code_unit_runtime) (named "Trenton")) m2
      = (inr (Batch.content_file "trenton-nj"), m3) /\
    1 = length bs /\
    1 = Batch.world m3.
Proof.
  exact (@processTown_processed_wrote_files code_unit_runtime
           (canned_host {| elements := Some [joes_deli] |})
           (Batch.town_of_element (R := code_unit_runtime) (named "Trenton"))
           (start_machine (canned_host {| elements := Some [joes_deli] |}) 0)
           _ _ eq_refl eq_refl).
Defined.

Section Startup.
Context {R : Runtime} {host : Batch.Host}.

Lemma run_batches_results (towns : list Batch.town) (m : Batch.machine) :
  exists results m',
    Batch.run_batches towns m = (inr (tally results), m') /\
    Forall2 outcome_of towns results.
Proof.
  unfold Batch.run_batches, Batch.bind. cbn [Batch.console_log].
  match goal with
  | |- context [Batch.process_batches towns 0 Batch.no_counts ?m0] =>
      destruct (process_batches_returns towns 0 Batch.no_counts m0)
        as (results & m1 & Hrun & Hall)
  end.
  rewrite drop_0 in Hall. rewrite foldl_count_tally in Hrun.
  destruct (print_summary_appends towns (tally results) m1) as (m' & Hprint & _).
  exists results, m'. rewrite Hrun, Hprint. split; [reflexivity | exact Hall].
Qed.

Lemma tally_all_skipped (results : list Batch.outcome) :
  Forall (fun r => r = {| Batch.skipped := true; Batch.businesses := 0;
                          Batch.error := false |}) results ->
  tally results =
    {| Batch.totalProcessed := 0; Batch.totalSkipped := length results;
       Batch.totalBusinesses := 0; Batch.totalErrors := 0 |}.
Proof.
  unfold tally. induction 1 as [|r results -> _ IH]; [reflexivity|].
  cbn [List.filter processed errored Batch.skipped Batch.error negb andb length] in *.
  injection IH as Hp Hs Hb He. rewrite Hp, Hs, Hb, He. reflexivity.
Qed.

End Startup.

(** X22. A failed query is passed on: when the query fails with a message, town
    discovery and per-town extraction both throw that message. *)
Theorem query_failure_propagates {R : Runtime} {host : Batch.Host} (t : Batch.town)
    (m : Batch.machine) (message : string) (w : Batch.World) :
  (Batch.queryOverpass Batch.towns_query (Batch.world m) = (inl message, w) ->
   fst (Batch.fetchNJTownsList m) = inl message) /\
  (Batch.queryOverpass (Batch.businesses_query (Batch.name t)) (Batch.world m)
     = (inl message, w) ->
   fst (Batch.fetchBusinessesForTown t m) = inl message).
Proof.
  split; intros Hq.
  - rewrite (fetchNJTownsList_fails m message w Hq). reflexivity.
  - rewrite (fetchBusinessesForTown_fails t m message w Hq). reflexivity.
Qed.

Lemma query_failure_propagates_witness :
  fst (Batch.fetchNJTownsList (host := offline_host) (start_machine offline_host 0))
    = inl "Request timeout" /\
  fst (Batch.fetchBusinessesForTown (host := offline_host)
         (Batch.town_of_element (R := code_unit_runtime) (named "Trenton"))
         (start_machine offline_host 0))
    = inl "Request timeout".
Proof.
  destruct (@query_failure_propagates code_unit_runtime offline_host
              (Batch.town_of_element (R := code_unit_runtime) (named "Trenton"))
              (start_machine offline_host 0) "Request timeout" 1) as [Hd He].
  exact (conj (Hd eq_refl) (He eq_refl)).
Defined.

(** X23. The exit status tells whether the town list could be had: when loading
    or discovering it throws, the program prints ["Fatal error: "] and the
    message on the error output, prints nothing more, and exits with 1;
    otherwise it exits with 0, whatever happened to the single towns, and the
    last thing it prints is the summary block, whose three town counters add
    up to the number of towns. *)
Theorem program_exit_status {R : Runtime} {host : Batch.Host} (m : Batch.machine) :
  match Batch.load_towns m with
  | (inl message, m1) =>
      Batch.program m =
        (1, {| Batch.world := Batch.world m1; Batch.stdout := Batch.stdout m1;
               Batch.stderr := Batch.stderr m1 ++ ["Fatal error: " +:+ message] |})
  | (inr towns, m1) =>
      exists c m' printed,
        Batch.program m = (0, m') /\
        Batch.stdout m' = printed ++ summary_block (length towns) c /\
        Batch.totalSkipped c + Batch.totalProcessed c + Batch.totalErrors c = length towns
  end.
Proof.
  unfold Batch.program, Batch.main.
  destruct (Batch.load_towns m) as [[message | towns] m1] eqn:Hload.
  - erewrite bind_inl by exact Hload. reflexivity.
  - destruct (run_batches_summary towns m1) as (c & m' & printed & Hrun & Hsum & Hout).
    exists c, m', printed.
    erewrite bind_inr by exact Hload. erewrite bind_inr by exact Hrun.
    split; [reflexivity|]. split; assumption.
Qed.

(** X24. When the two directories and the town list file exist, the town list
    is read from the file: no directory is made, no query is sent, and one
    line is printed. *)
Theorem load_towns_reads_existing_list {R : Runtime} {host : Batch.Host}
    (m : Batch.machine) :
  Batch.existsSync Batch.DATA_DIR (Batch.world m) = true ->
  Batch.existsSync Batch.CONTENT_DIR (Batch.world m) = true ->
  Batch.existsSync Batch.TOWNS_LIST_FILE (Batch.world m) = true ->
  Batch.load_towns m =
    (fst (Batch.readTownsList (Batch.world m)),
     {| Batch.world := snd (Batch.readTownsList (Batch.world m));
        Batch.stdout := Batch.stdout m ++ ["Loading existing NJ towns list..." +:+ Batch.nl];
        Batch.stderr := Batch.stderr m |}).
Proof.
  intros Hd Hc Hl. unfold Batch.load_towns.
  erewrite bind_inr by (unfold Batch.read_world; rewrite Hd; reflexivity). cbv beta iota.
  erewrite bind_inr by reflexivity. cbv beta iota.
  erewrite bind_inr by (unfold Batch.read_world; rewrite Hc; reflexivity). cbv beta iota.
  erewrite bind_inr by reflexivity. cbv beta iota.
  erewrite bind_inr by (unfold Batch.read_world; rewrite Hl; reflexivity). cbv beta iota.
  erewrite bind_inr by reflexivity. cbv beta iota.
  unfold Batch.on_world. cbn [Batch.world Batch.stdout Batch.stderr].
  destruct (Batch.readTownsList (Batch.world m)) as [r w]. reflexivity.
Qed.

Lemma load_towns_reads_existing_list_witness :
  Batch.load_towns (host := archive_host) (start_machine archive_host 0)
  = (inr [Batch.town_of_element (R := code_unit_runtime) (named "Trenton")],
     @Batch.Build_machine code_unit_runtime archive_host 0
       ["Loading existing NJ towns list..." +:+ Batch.nl] []).
Proof.
  exact (@load_towns_reads_existing_list code_unit_runtime archive_host
           (start_machine archive_host 0) eq_refl eq_refl eq_refl).
Defined.

(** X25. When the directories exist, no town list is on file and discovery
    throws (the query failed, or the answer had no elements), the program
    stops there: it prints the fatal error, exits with 1, and has not written
    the town list nor touched any town. *)
Theorem discovery_failure_is_fatal {R : Runtime} {host : Batch.Host}
    (m m1 : Batch.machine) (message : string) :
  Batch.existsSync Batch.DATA_DIR (Batch.world m) = true ->
  Batch.existsSync Batch.CONTENT_DIR (Batch.world m) = true ->
  Batch.existsSync Batch.TOWNS_LIST_FILE (Batch.world m) = false ->
  Batch.fetchNJTownsList m = (inl message, m1) ->
  Batch.program m =
    (1, {| Batch.world := Batch.world m1; Batch.stdout := Batch.stdout m1;
           Batch.stderr := Batch.stderr m1 ++ ["Fatal error: " +:+ message] |}).
Proof.
  intros Hd Hc Hl Hfetch. unfold Batch.program, Batch.main.
  assert (Hload : Batch.load_towns m = (inl message, m1)).
  { unfold Batch.load_towns.
    erewrite bind_inr by (unfold Batch.read_world; rewrite Hd; reflexivity). cbv beta iota.
    erewrite bind_inr by reflexivity. cbv beta iota.
    erewrite bind_inr by (unfold Batch.read_world; rewrite Hc; reflexivity). cbv beta iota.
    erewrite bind_inr by reflexivity. cbv beta iota.
    erewrite bind_inr by (unfold Batch.read_world; rewrite Hl; reflexivity). cbv beta iota.
    apply bind_inl, Hfetch. }
  erewrite bind_inl by exact Hload. reflexivity.
Qed.

Lemma discovery_failure_is_fatal_witness :
  Batch.program (host := offline_host) (start_machine offline_host 0)
  = (1, @Batch.Build_machine code_unit_runtime offline_host 1
          ["Fetching list of all NJ towns from OpenStreetMap..." +:+ Batch.nl]
          ["Fatal error: Request timeout"]).
Proof.
  exact (@discovery_failure_is_fatal code_unit_runtime offline_host
           (start_machine offline_host 0) _ "Request timeout"
           eq_refl eq_refl eq_refl eq_refl).
Defined.

(** X26. A run in which the data file of every town is there at all times skips
    every town: the counters end as no town processed, all towns skipped, no
    business and no error. *)
Theorem rerun_skips_every_town {R : Runtime} {host : Batch.Host}
    (towns : list Batch.town) (m : Batch.machine) :
  (forall t w, t ∈ towns ->
     Batch.existsSync (Batch.data_file (Batch.slug t)) w = true) ->
  exists m',
    Batch.run_batches towns m =
      (inr {| Batch.totalProcessed := 0; Batch.totalSkipped := length towns;
              Batch.totalBusinesses := 0; Batch.totalErrors := 0 |}, m').
Proof.
  intros Hexists.
  destruct (run_batches_results towns m) as (results & m' & Hrun & Hall).
  exists m'. rewrite Hrun. f_equal. f_equal.
  rewrite (Forall2_length _ _ _ Hall). apply tally_all_skipped.
  clear Hrun. induction Hall as [|t r towns results (m1 & m2 & Hr) _ IH]; [constructor|].
  constructor.
  - rewrite processTown_skips_existing_aux in Hr.
    + injection Hr as <- _. reflexivity.
    + apply Hexists. apply elem_of_cons. left. reflexivity.
  - apply IH. intros t' w Ht'. apply Hexists. apply elem_of_cons. right. exact Ht'.
Qed.

Lemma rerun_skips_every_town_witness :
  exists m',
    Batch.run_batches (host := archive_host)
      [Batch.town_of_element (R := code_unit_runtime) (named "Trenton");
       Batch.town_of_element (R := code_unit_runtime) (named "Cherry Hill Township")]
      (start_machine archive_host 0)
    = (inr {| Batch.totalProcessed := 0; Batch.totalSkipped := 2;
              Batch.totalBusinesses := 0; Batch.totalErrors := 0 |}, m').
Proof.
  exact (@rerun_skips_every_town code_unit_runtime archive_host
           [Batch.town_of_element (R := code_unit_runtime) (named "Trenton");
            Batch.town_of_element (R := code_unit_runtime) (named "Cherry Hill Township")]
           (start_machine archive_host 0) (fun _ _ _ => eq_refl)).
Defined.

Lemma tally_all_errored (results : list Batch.outcome) :
  Forall (fun r => r = {| Batch.skipped := false; Batch.businesses := 0;
                          Batch.error := true |}) results ->
  tally results =
    {| Batch.totalProcessed := 0; Batch.totalSkipped := 0;
       Batch.totalBusinesses := 0; Batch.totalErrors := length results |}.
Proof.
  unfold tally. induction 1 as [|r results -> _ IH]; [reflexivity|].
  cbn [List.filter processed errored Batch.skipped Batch.error negb andb length] in *.
  injection IH as Hp Hs Hb He. rewrite Hp, Hs, Hb, He. reflexivity.
Qed.

(** X27. A run in which no data file is there and the query of every town
    fails still ends normally, with every town counted as an error and none
    as processed or skipped. *)
Theorem outage_counts_every_town_as_error {R : Runtime} {host : Batch.Host}
    (towns : list Batch.town) (m : Batch.machine) :
  (forall t w, t ∈ towns ->
     Batch.existsSync (Batch.data_file (Batch.slug t)) w = false /\
     exists message w',
       Batch.queryOverpass (Batch.businesses_query (Batch.name t)) w = (inl message, w')) ->
  exists m',
    Batch.run_batches towns m =
      (inr {| Batch.totalProcessed := 0; Batch.totalSkipped := 0;
              Batch.totalBusinesses := 0; Batch.totalErrors := length towns |}, m').
Proof.
  intros Hdown.
  destruct (run_batches_results towns m) as (results & m' & Hrun & Hall).
  exists m'. rewrite Hrun. f_equal. f_equal.
  rewrite (Forall2_length _ _ _ Hall). apply tally_all_errored.
  clear Hrun. induction Hall as [|t r towns results (m1 & m2 & Hr) _ IH]; [constructor|].
  constructor.
  - destruct (Hdown t (Batch.world m1)) as (Hex & message & w' & Hq);
      [apply elem_of_cons; left; reflexivity|].
    rewrite (processTown_query_failure_aux t m1 message w' Hex Hq) in Hr.
    injection Hr as <- _. reflexivity.
  - apply IH. intros t' w Ht'. apply Hdown. apply elem_of_cons. right. exact Ht'.
Qed.

Lemma outage_counts_every_town_as_error_witness :
  exists m',
    Batch.run_batches (host := offline_host)
      [Batch.town_of_element (R := code_unit_runtime) (named "Trenton");
       Batch.town_of_element (R := code_unit_runtime) (named "Cherry Hill Township")]
      (start_machine offline_host 0)
    = (inr {| Batch.totalProcessed := 0; Batch.totalSkipped := 0;
              Batch.totalBusinesses := 0; Batch.totalErrors := 2 |}, m').
Proof.
  exact (@outage_counts_every_town_as_error code_unit_runtime offline_host
           [Batch.town_of_element (R := code_unit_runtime) (named "Trenton");
            Batch.town_of_element (R := code_unit_runtime) (named "Cherry Hill Township")]
           (start_machine offline_host 0)
           (fun _ w _ => conj eq_refl
              (ex_intro _ "Request timeout" (ex_intro _ (S w) eq_refl)))).
Defined.

(** ** Display names *)

Lemma length_map_chars (f : ascii -> ascii) (s : string) :
  String.length (map_chars f s) = String.length s.
Proof. induction s as [|c s IH]; [reflexivity|]. cbn. rewrite IH. reflexivity. Qed.

Lemma length_append (a b : string) :
  String.length (a +:+ b) = String.length a + String.length b.
Proof.
  induction a as [|c a IH]; [reflexivity|].
  change (String c a +:+ b) with (String c (a +:+ b)). cbn [String.length].
  rewrite IH. reflexivity.
Qed.

Lemma slice_from_append (a b : string) : slice_from (String.length a) (a +:+ b) = b.
Proof. induction a as [|c a IH]; [reflexivity | exact IH]. Qed.

Lemma slice_upto_append (a b : string) : slice_upto (String.length a) (a +:+ b) = a.
Proof.
  induction a as [|c a IH]; [reflexivity|].
  change (String c a +:+ b) with (String c (a +:+ b)). cbn [String.length slice_upto].
  rewrite IH. reflexivity.
Qed.

(** X28. The suffix removal of the town list takes a final [" Township"],
    [" Borough"] or [" City"] off a name whatever the case of its letters,
    and leaves exactly what stands in front of it; a name that does not end in
    the suffix is left as it is. *)
Theorem strip_suffix_takes_final_suffix (suffix name : string) :
  (forall stem ending,
     name = stem +:+ ending -> toLowerCase ending = toLowerCase suffix ->
     Batch.strip_suffix suffix name = stem) /\
  (Batch.strip_suffix suffix name = name \/
   exists stem ending,
     name = stem +:+ ending /\ toLowerCase ending = toLowerCase suffix /\
     Batch.strip_suffix suffix name = stem).
Proof.
  split.
  - intros stem ending -> Hcase. unfold Batch.strip_suffix.
    assert (Hlen : String.length ending = String.length suffix).
    { unfold toLowerCase in Hcase.
      rewrite <- (length_map_chars lower_char ending), Hcase. apply length_map_chars. }
    rewrite length_append, Hlen.
    replace (String.length stem + String.length suffix - String.length suffix)
      with (String.length stem) by lia.
    rewrite slice_from_append, Hcase, String.eqb_refl.
    replace (Nat.leb (String.length suffix) (String.length stem + String.length suffix))
      with true by (symmetry; apply Nat.leb_le; lia).
    unfold slice. cbn [andb slice_from]. rewrite Nat.sub_0_r. apply slice_upto_append.
  - unfold Batch.strip_suffix.
    destruct (Nat.leb _ _ && _) eqn:Hmatch; [|left; reflexivity].
    right. apply andb_prop in Hmatch as [_ Hcase]. apply String.eqb_eq in Hcase.
    exists (slice 0 (String.length name - String.length suffix) name),
           (slice_from (String.length name - String.length suffix) name).
    split; [|split; [exact Hcase | reflexivity]].
    unfold slice. cbn [slice_from]. rewrite Nat.sub_0_r. symmetry. apply slice_upto_from.
Qed.
